(** * ImageDownloader: a shallow embedding of [image_downloader.py]

    The development follows the module top to bottom.  Pure helpers become
    Rocq functions; code that can raise returns a [Res]; code that logs,
    touches the network or the file system runs in the monad [M], which
    threads the file system and emits the ordered trace of externally
    visible actions (log records, HTTP requests, file-system calls). *)

From Stdlib Require Import ZArith QArith Ascii String.
From stdpp Require Import base option list strings gmap.

Local Open Scope string_scope.
Local Open Scope Z_scope.
Local Open Scope list_scope.

(** ** Python values that the module relies on *)

(** The exceptions that the modelled code can raise by itself. *)
Inductive exn : Type :=
  | TypeError
  | IndexError
  | ValueError
  | AttributeError.

(** Result of evaluating a Python expression: a value or a raised
    exception. *)
Inductive Res (A : Type) : Type :=
  | Ret (a : A)
  | Raise (e : exn).
Arguments Ret {A} a.
Arguments Raise {A} e.

Definition res_bind {A B} (r : Res A) (k : A → Res B) : Res B :=
  match r with
  | Ret a => k a
  | Raise e => Raise e
  end.

(** [l[i]] on a Python list: negative indices count from the end, an index
    out of range raises [IndexError]. *)
Definition py_getitem {A} (l : list A) (i : Z) : Res A :=
  let n := Z.of_nat (length l) in
  let j := if i <? 0 then n + i else i in
  if (0 <=? j) && (j <? n) then
    match l !! Z.to_nat j with
    | Some x => Ret x
    | None => Raise IndexError
    end
  else Raise IndexError.

(** ** Strings

    A Python [str] is modelled by its UTF-8 bytes.  The code splits on and
    searches for ASCII text, and no byte of a multi-byte UTF-8 sequence is
    an ASCII byte, so byte-wise and character-wise results agree.  [strip]
    also removes white space characters beyond ASCII; it is written on
    their encodings (see [isspace2] and [isspace3]). *)

(** [s.split(sep)] for a one-character separator: never the empty list. *)
Fixpoint split (sep : ascii) (s : string) : list string :=
  match s with
  | EmptyString => [EmptyString]
  | String c s' =>
      if Ascii.eqb c sep then EmptyString :: split sep s'
      else match split sep s' with
           | [] => [String c EmptyString]
           | x :: xs => String c x :: xs
           end
  end.

(** [s.startswith(p)]. *)
Fixpoint startswith (p s : string) : bool :=
  match p, s with
  | EmptyString, _ => true
  | String a p', String b s' => Ascii.eqb a b && startswith p' s'
  | String _ _, EmptyString => false
  end.

(** [needle in hay] on two strings. *)
Fixpoint str_contains (needle hay : string) : bool :=
  startswith needle hay ||
  match hay with
  | EmptyString => false
  | String _ hay' => str_contains needle hay'
  end.

(** [c in s] for a single character. *)
Fixpoint has_char (c : ascii) (s : string) : bool :=
  match s with
  | EmptyString => false
  | String a s' => Ascii.eqb a c || has_char c s'
  end.

(** ** [get_filename_from_url] *)

Definition get_filename_from_url (url : string) : Res string :=
  res_bind (py_getitem (split "/" url) (-1)) (λ last_path_element,
  (* Remove GET parameters *)
  res_bind (py_getitem (split "?" last_path_element) 0) (λ filename,
  Ret filename)).

(** ** The outside world

    What the module observes of its environment: log records handed to the
    [logging] module and calls made to [requests] and to the operating
    system, in program order. *)

Inductive level : Type := DEBUG | INFO | WARNING | ERROR | CRITICAL.

Inductive event : Type :=
  | Log (lvl : level) (msg : string)
  | HttpGet (url : string) (timeout : Q)
  | PathExists (path : string)
  | OpenWrite (path : string)
  | OpenRead (path : string)
  | MakeDirs (path : string).

(** A fetched [requests.Response]: the fields the module reads.
    [content_type] is [headers.get('content-type')], [None] when the header
    is absent. *)
Record Response : Type := mkResponse {
  status_code : Z;
  content_type : option string;
  content : string
}.

(** [bool(response)]: [requests.Response.__bool__] returns [self.ok], which
    is false exactly when [raise_for_status] would raise, i.e. for the
    status codes 400 to 599. *)
Definition response_ok (r : Response) : bool :=
  negb ((400 <=? status_code r) && (status_code r <? 600)).

(** What [requests.get(url, allow_redirects=True, timeout=t)] does. *)
Inductive NetResult : Type :=
  | Responded (r : Response)
  | TimedOut
  | TransportError.

Inductive node : Type :=
  | File (data : string)
  | Dir.

(** The file system: a finite map from path names to nodes.  The working
    directory and the root always exist and are not stored. *)
Abbreviation FS := (gmap string node).

(** The parts of the environment that the module does not own:
    [validators.url], the network behind [requests.get], and the operating
    system's refusal of an operation on a path (permissions, full disk). *)
Record Env : Type := mkEnv {
  validators_url : string → bool;
  requests_get : string → Q → NetResult;
  os_denied : string → bool
}.

(** *** Path names *)

Definition slash : ascii := "/"%char.

(** [p.rstrip('/')]. *)
Fixpoint rstrip_slash (p : string) : string :=
  match p with
  | EmptyString => EmptyString
  | String c p' =>
      match rstrip_slash p' with
      | EmptyString => if Ascii.eqb c slash then EmptyString else String c EmptyString
      | r => String c r
      end
  end.

Definition ends_with_slash (p : string) : bool :=
  negb (String.eqb (rstrip_slash p) p).

(** The text before the last ['/'], empty when there is none. *)
Fixpoint dirname (p : string) : string :=
  match p with
  | EmptyString => EmptyString
  | String c p' => if has_char slash p' then String c (dirname p') else EmptyString
  end.

(** [os.path.join(a, b)] for a second component without a leading
    ['/'] (a derived file name never has one). *)
Definition os_path_join (a b : string) : string :=
  if String.eqb a "" then b
  else if ends_with_slash a then a +:+ b
  else a +:+ "/" +:+ b.

(** Path resolution: the empty path names nothing, a path with a trailing
    ['/'] only names a directory. *)
Definition lookup_path (fs : FS) (p : string) : option node :=
  if String.eqb p "" then None
  else if ends_with_slash p then
    if String.eqb (rstrip_slash p) "" then Some Dir
    else match fs !! rstrip_slash p with
         | Some Dir => Some Dir
         | _ => None
         end
  else fs !! p.

Definition os_path_exists (fs : FS) (p : string) : bool :=
  match lookup_path fs p with
  | Some _ => true
  | None => false
  end.

Definition parent_is_dir (fs : FS) (p : string) : bool :=
  let d := dirname p in
  if String.eqb (rstrip_slash d) "" then true
  else match lookup_path fs d with
       | Some Dir => true
       | _ => false
       end.

(** [open(p, 'wb')] followed by [write(data)]: the file system afterwards,
    or [None] when [open] raises an [OSError] (access refused, the path
    names a directory, the parent is missing).  A [write] that fails after
    [open] has created or emptied the file (a full disk) is not among the
    cases told apart here. *)
Definition write_file (env : Env) (fs : FS) (p data : string) : option FS :=
  if os_denied env p then None
  else match lookup_path fs p with
       | Some (File _) => Some (<[p := File data]> fs)
       | Some Dir => None
       | None =>
           if String.eqb p "" || ends_with_slash p then None
           else if parent_is_dir fs p then Some (<[p := File data]> fs)
           else None
       end.

(** The directories named by [p] from the outermost to [p] itself:
    ["a/b/c"] gives ["a"; "a/b"; "a/b/c"]. *)
Fixpoint path_prefixes (absolute : bool) (pre : string) (comps : list string) : list string :=
  match comps with
  | [] => []
  | c :: cs =>
      if String.eqb c "" then path_prefixes absolute pre cs
      else
        let q := if String.eqb pre ""
                 then (if absolute then "/" +:+ c else c)
                 else pre +:+ "/" +:+ c in
        q :: path_prefixes absolute q cs
  end.

(** One [mkdir] per missing directory, from the outermost inwards.  The
    Boolean tells whether the last [mkdir] succeeded; the directories made
    before a failing [mkdir] stay. *)
Fixpoint mkdir_chain (env : Env) (fs : FS) (ps : list string) : bool * FS :=
  match ps with
  | [] => (true, fs)
  | [leaf] =>
      match fs !! leaf with
      | Some _ => (false, fs)
      | None => if os_denied env leaf then (false, fs) else (true, <[leaf := Dir]> fs)
      end
  | a :: rest =>
      match fs !! a with
      | Some (File _) => (false, fs)
      | Some Dir => mkdir_chain env fs rest
      | None =>
          if os_denied env a then (false, fs)
          else mkdir_chain env (<[a := Dir]> fs) rest
      end
  end.

(** [os.makedirs(p)]: the missing ancestors are created one by one, then
    [p] itself.  It fails ([false], an [OSError]) when [p] is empty or
    already exists, when an ancestor is a regular file or when a [mkdir] is
    refused; the file system returned holds the ancestors created until
    then. *)
Definition makedirs (env : Env) (fs : FS) (p : string) : bool * FS :=
  match path_prefixes (startswith "/" p) "" (split slash p) with
  | [] => (false, fs)
  | ps => mkdir_chain env fs ps
  end.

(** *** Text files *)

Definition LF : ascii := "010"%char.
Definition CR : ascii := "013"%char.

(** Universal newlines of text mode: ["\r\n"] and a lone ["\r"] read as
    ["\n"]. *)
Fixpoint universal_newlines (s : string) : string :=
  match s with
  | EmptyString => EmptyString
  | String c s' =>
      if Ascii.eqb c CR then
        match s' with
        | String d _ => if Ascii.eqb d LF then universal_newlines s'
                        else String LF (universal_newlines s')
        | EmptyString => String LF EmptyString
        end
      else String c (universal_newlines s')
  end.

(** Cut after every ["\n"], keeping it. *)
Fixpoint cut_lines (s : string) : list string :=
  match s with
  | EmptyString => []
  | String c s' =>
      if Ascii.eqb c LF then String c EmptyString :: cut_lines s'
      else match cut_lines s' with
           | [] => [String c EmptyString]
           | l :: ls => String c l :: ls
           end
  end.

Definition readlines (data : string) : list string :=
  cut_lines (universal_newlines data).

(** [open(p, 'r')] and [readlines()]; [None] when an [OSError] is raised.
    The bytes of the file are taken to be valid text. *)
Definition read_file (env : Env) (fs : FS) (p : string) : option (list string) :=
  if os_denied env p then None
  else match lookup_path fs p with
       | Some (File data) => Some (readlines data)
       | _ => None
       end.

(** White space as [str.isspace] has it.  A string is the UTF-8 encoding
    of the text, so a white space character takes one, two or three bytes:
    - one byte, the ASCII ones: U+0009 to U+000D, U+001C to U+0020; *)
Definition isspace (c : ascii) : bool :=
  let n := nat_of_ascii c in
  ((9 <=? n) && (n <=? 13) || (28 <=? n) && (n <=? 32))%nat.

Definition byte_is (n : nat) (c : ascii) : bool := Nat.eqb (nat_of_ascii c) n.

(** - two bytes: U+0085 ([C2 85]) and U+00A0 ([C2 A0]); *)
Definition isspace2 (a b : ascii) : bool :=
  byte_is 194 a && (byte_is 133 b || byte_is 160 b).

(** - three bytes: U+1680 ([E1 9A 80]), U+2000 to U+200A ([E2 80 80] to
      [E2 80 8A]), U+2028, U+2029, U+202F ([E2 80 A8], [E2 80 A9],
      [E2 80 AF]), U+205F ([E2 81 9F]) and U+3000 ([E3 80 80]). *)
Definition isspace3 (a b c : ascii) : bool :=
  let n := nat_of_ascii c in
  byte_is 225 a && byte_is 154 b && byte_is 128 c
  || byte_is 226 a && byte_is 128 b
     && ((128 <=? n) && (n <=? 138) || byte_is 168 c || byte_is 169 c || byte_is 175 c)%nat
  || byte_is 226 a && byte_is 129 b && byte_is 159 c
  || byte_is 227 a && byte_is 128 b && byte_is 128 c.

(** [s.lstrip()]: the leading white space characters are dropped. *)
Fixpoint lstrip (s : string) : string :=
  match s with
  | EmptyString => EmptyString
  | String a s1 =>
      if isspace a then lstrip s1
      else match s1 with
           | EmptyString => s
           | String b s2 =>
               if isspace2 a b then lstrip s2
               else match s2 with
                    | EmptyString => s
                    | String c s3 => if isspace3 a b c then lstrip s3 else s
                    end
           end
  end.

(** Nothing but white space characters. *)
Fixpoint all_space (s : string) : bool :=
  match s with
  | EmptyString => true
  | String a s1 =>
      if isspace a then all_space s1
      else match s1 with
           | EmptyString => false
           | String b s2 =>
               if isspace2 a b then all_space s2
               else match s2 with
                    | EmptyString => false
                    | String c s3 => if isspace3 a b c then all_space s3 else false
                    end
           end
  end.

(** [s.rstrip()]: the text is cut where only white space follows.  No
    byte inside the encoding of a character starts a white space
    character, so the cut never falls inside a character of valid text. *)
Fixpoint rstrip (s : string) : string :=
  match s with
  | EmptyString => EmptyString
  | String c s' => if all_space s then EmptyString else String c (rstrip s')
  end.

(** [s.strip()]. *)
Definition strip (s : string) : string := rstrip (lstrip s).

(** ** The effect monad

    A computation reads and updates the file system, emits events and
    either returns or raises. *)

Definition M (A : Type) : Type := FS → Res A * FS * list event.

Definition ret {A} (a : A) : M A := λ fs, (Ret a, fs, []).

Definition raise {A} (e : exn) : M A := λ fs, (Raise e, fs, []).

Definition bind {A B} (m : M A) (k : A → M B) : M B := λ fs,
  match m fs with
  | (Ret a, fs1, t1) => let '(r, fs2, t2) := k a fs1 in (r, fs2, t1 ++ t2)
  | (Raise e, fs1, t1) => (Raise e, fs1, t1)
  end.

Definition emit (e : event) : M unit := λ fs, (Ret tt, fs, [e]).

Definition lift {A} (r : Res A) : M A := λ fs, (r, fs, []).

Declare Scope py_scope.
Delimit Scope py_scope with py.
Notation "x <- m ;; k" := (bind m (λ x, k))
  (at level 100, m at next level, right associativity) : py_scope.
Notation "m ;; k" := (bind m (λ _, k))
  (at level 100, right associativity) : py_scope.
Local Open Scope py_scope.

(** Projections of a finished run. *)
Definition result {A} (o : Res A * FS * list event) : Res A := o.1.1.
Definition final_fs {A} (o : Res A * FS * list event) : FS := o.1.2.
Definition events {A} (o : Res A * FS * list event) : list event := o.2.

(** [logging.getLogger(__name__).<level>(msg)]. *)
Definition logger (lvl : level) (msg : string) : M unit := emit (Log lvl msg).

(** [os.path.exists(p)]. *)
Definition path_exists (p : string) : M bool := λ fs,
  (Ret (os_path_exists fs p), fs, [PathExists p]).

(** ** The module, function by function *)

Section Module.

Context (env : Env).

Definition is_valid_response (response : Response) (url : string) : M bool :=
  if negb (status_code response =? 200) then
    logger ERROR ("HTTP error when trying to access: " +:+ url) ;;
    ret false
  else
    logger DEBUG ("HTTP 200 received on URL: " +:+ url) ;;
    ret true.

(** ['image' not in content_type]: membership in [None] raises
    [TypeError]. *)
Definition not_in (needle : string) (hay : option string) : Res bool :=
  match hay with
  | None => Raise TypeError
  | Some s => Ret (negb (str_contains needle s))
  end.

Definition is_valid_content (response : Response) (url : string) : M bool :=
  let content_type := content_type response in
  no_image <- lift (not_in "image" content_type) ;;
  if no_image then
    logger ERROR ("Content of the URL is not an image: " +:+ url) ;;
    ret false
  else
    logger DEBUG ("Content of URL is image/*: " +:+ url) ;;
    ret true.

Definition is_valid_url (url : string) : M bool :=
  (* Regex validation *)
  if negb (validators_url env url) then
    logger ERROR ("Invalid URL: " +:+ url) ;;
    ret false
  else
    logger DEBUG ("URL is valid: " +:+ url) ;;
    ret true.

(** The bare [except] catches whatever [open] or [write] raise. *)
Definition save_image (response : Response) (file_path : string) : M bool := λ fs,
  match write_file env fs file_path (content response) with
  | Some fs' =>
      (Ret true, fs',
       [OpenWrite file_path; Log DEBUG ("Saved image to: " +:+ file_path)])
  | None =>
      (Ret false, fs,
       [OpenWrite file_path;
        Log ERROR ("Could not save downloaded image to: " +:+ file_path)])
  end.

(** [get_image] returns the response, or [False] after logging. *)
Definition get_image (image_url : string) (timeout : Q) : M (option Response) :=
  emit (HttpGet image_url timeout) ;;
  match requests_get env image_url timeout with
  | Responded response => ret (Some response)
  | TimedOut =>
      logger ERROR ("Request timed out for URL: " +:+ image_url) ;;
      ret None
  | TransportError =>
      logger ERROR ("Failed to download image: " +:+ image_url) ;;
      ret None
  end.

(** Truth value of what [get_image] returned: [False] is false, a response
    has the truth value [requests] gives it. *)
Definition truthy (image : option Response) : bool :=
  match image with
  | None => false
  | Some response => response_ok response
  end.

(** [except IOError] catches every [OSError] that [os.makedirs] raises
    ([IOError] is [OSError] in Python 3). *)
Definition create_dest_dir (dest_dir : string) : M bool :=
  dir_exists <- path_exists dest_dir ;;
  if negb dir_exists then
    λ fs,
      match makedirs env fs dest_dir with
      | (true, fs') =>
          (Ret true, fs',
           [MakeDirs dest_dir;
            Log INFO ("Created destination directory: " +:+ dest_dir)])
      | (false, fs') =>
          (Ret false, fs',
           [MakeDirs dest_dir;
            Log CRITICAL "Could not create download directory nor does it exist"])
      end
  else ret true.

Definition download_single_image (url dest_dir : string)
    (replace_duplicates : bool) (timeout : Q) : M bool :=
  valid <- is_valid_url url ;;
  if negb valid then ret false else
  image <- get_image url timeout ;;
  if negb (truthy image) then ret false else
  match image with
  | None => raise AttributeError (* not reached: [False] is not truthy *)
  | Some response =>
      ok <- is_valid_response response url ;;
      if negb ok then ret false else
      ok <- is_valid_content response url ;;
      if negb ok then ret false else
      image_filename <- lift (get_filename_from_url url) ;;
      let image_file_path := os_path_join dest_dir image_filename in
      file_exists <- path_exists image_file_path ;;
      if file_exists && negb replace_duplicates then
        logger INFO ("File already exists, skipping image: " +:+ image_file_path) ;;
        ret false
      else
        (* the value [save_image] returns is not used *)
        save_image response image_file_path ;;
        logger INFO ("Successfully downloaded image: " +:+ image_file_path) ;;
        ret true
  end.

Definition read_lines_from_file (file_path : string) : M (option (list string)) := λ fs,
  match read_file env fs file_path with
  | Some lines => (Ret (Some lines), fs, [OpenRead file_path])
  | None =>
      (Ret None, fs,
       [OpenRead file_path; Log CRITICAL ("Could not read file: " +:+ file_path)])
  end.

(** [Pool(processes)]: fewer than one process is a [ValueError]. *)
Definition Pool (processes : Z) : M unit :=
  if processes <? 1 then raise ValueError else ret tt.

(** The calls of a batch taken one at a time, each a task of its own:
    what a call returns or raises is kept and the next call is made.  This
    is what the pool does with chunks of one URL (a batch of at most four
    URLs per process), and what a batch amounts to when no call raises
    (see [map_async] below for the chunks). *)
Fixpoint map_async_wait (worker : string → M bool) (urls : list string)
    : M (list (Res bool)) := λ fs,
  match urls with
  | [] => (Ret [], fs, [])
  | u :: us =>
      let '(r, fs1, t1) := worker u fs in
      let '(rs, fs2, t2) := map_async_wait worker us fs1 in
      (res_bind rs (λ l, Ret (r :: l)), fs2, t1 ++ t2)
  end.

(** The chunk size [map_async] takes when none is given:
    [divmod(len(iterable), len(pool) * 4)], one more when there is a
    remainder, and [0] for an empty batch. *)
Definition chunksize (n : nat) (processes : Z) : nat :=
  let chunksize := Z.of_nat n `div` (processes * 4) in
  let extra := Z.of_nat n `mod` (processes * 4) in
  Z.to_nat (if extra =? 0 then chunksize else chunksize + 1).

(** [Pool._get_tasks]: the batch cut into chunks of [size] elements, the
    last one shorter; the generator stops at the first empty slice. *)
Fixpoint get_tasks {A} (fuel size : nat) (it : list A) : list (list A) :=
  match fuel with
  | O => []
  | S fuel' =>
      match take size it with
      | [] => []
      | x => x :: get_tasks fuel' size (drop size it)
      end
  end.

(** [mapstar]: a task is [list(map(worker, chunk))].  A call that raises
    ends the task: the calls after it in the chunk are not made. *)
Fixpoint mapstar (worker : string → M bool) (chunk : list string) : M (list bool) :=
  match chunk with
  | [] => ret []
  | u :: us =>
      b <- worker u ;;
      bs <- mapstar worker us ;;
      ret (b :: bs)
  end.

(** The pool's processes carry out every task; what a task returns or
    raises is kept for the [AsyncResult].  The tasks are taken one after
    the other in list order, which is one of the schedules the pool
    admits. *)
Fixpoint run_tasks (worker : string → M bool) (tasks : list (list string))
    : M (list (Res (list bool))) := λ fs,
  match tasks with
  | [] => (Ret [], fs, [])
  | t :: ts =>
      let '(r, fs1, t1) := mapstar worker t fs in
      let '(rs, fs2, t2) := run_tasks worker ts fs1 in
      (res_bind rs (λ l, Ret (r :: l)), fs2, t1 ++ t2)
  end.

(** [pool.map_async(worker, urls)] followed by [result.wait()]: the batch
    is cut into tasks and [wait] returns when every task is done, also
    after one of them has raised (so [multiprocessing] of CPython 3.11);
    [wait] itself never raises. *)
Definition map_async (processes : Z) (worker : string → M bool) (urls : list string)
    : M (list (Res (list bool))) :=
  let n := length urls in
  run_tasks worker (get_tasks n (chunksize n processes) urls).

Definition download_images (url_filepath dest_dir : string)
    (replace_duplicates : bool) (timeout : Q) (processes : Z) : M bool :=
  created <- create_dest_dir dest_dir ;;
  if negb created then ret false else
  lines <- read_lines_from_file url_filepath ;;
  match lines with
  | None => raise TypeError
  | Some lines =>
      let urls := map strip lines in
      Pool processes ;;
      let worker := λ url, download_single_image url dest_dir replace_duplicates timeout in
      map_async processes worker urls ;;
      ret true
  end.

End Module.

(** ** The URL grammar

    [validators.url] is a third-party function; the repository only says
    that it is a regular-expression check of the URL syntax. *)

Definition in_range (lo hi : nat) (c : ascii) : bool :=
  let n := nat_of_ascii c in ((lo <=? n) && (n <=? hi))%nat.

Definition is_digit (c : ascii) : bool := in_range 48 57 c.
Definition is_alpha (c : ascii) : bool := in_range 97 122 c || in_range 65 90 c.
Definition is_hex (c : ascii) : bool :=
  is_digit c || in_range 97 102 c || in_range 65 70 c.
Definition is_dash (c : ascii) : bool := Ascii.eqb c "-"%char.

Fixpoint all_chars (P : ascii → bool) (s : string) : bool :=
  match s with
  | EmptyString => true
  | String c s' => P c && all_chars P s'
  end.

Fixpoint strlen (s : string) : nat :=
  match s with
  | EmptyString => O
  | String _ s' => S (strlen s')
  end.

Fixpoint drop_prefix (p s : string) : option string :=
  match p, s with
  | EmptyString, _ => Some s
  | String a p', String b s' => if Ascii.eqb a b then drop_prefix p' s' else None
  | String _ _, EmptyString => None
  end.

(** The longest prefix without a character satisfying [stop], and the
    rest. *)
Fixpoint break_at (stop : ascii → bool) (s : string) : string * string :=
  match s with
  | EmptyString => (EmptyString, EmptyString)
  | String c s' =>
      if stop c then (EmptyString, s)
      else let '(a, b) := break_at stop s' in (String c a, b)
  end.

Definition first_char (s : string) : option ascii :=
  match s with
  | EmptyString => None
  | String c _ => Some c
  end.

Fixpoint last_char (s : string) : option ascii :=
  match s with
  | EmptyString => None
  | String c EmptyString => Some c
  | String _ s' => last_char s'
  end.

Definition valid_label (l : string) : bool :=
  match first_char l, last_char l with
  | Some a, Some z =>
      all_chars (λ c, is_alpha c || is_digit c || is_dash c) l
      && negb (is_dash a) && negb (is_dash z)
  | _, _ => false
  end.

Definition valid_tld (l : string) : bool :=
  (2 <=? strlen l)%nat && all_chars is_alpha l.

Definition valid_domain (h : string) : bool :=
  let labels := split "." h in
  (2 <=? length labels)%nat && forallb valid_label labels
  && valid_tld (List.last labels EmptyString).

Fixpoint decimal (acc : nat) (s : string) : nat :=
  match s with
  | EmptyString => acc
  | String c s' => decimal (10 * acc + (nat_of_ascii c - 48))%nat s'
  end.

Definition valid_octet (o : string) : bool :=
  (1 <=? strlen o)%nat && (strlen o <=? 3)%nat && all_chars is_digit o
  && (decimal 0 o <=? 255)%nat.

Definition valid_ipv4 (h : string) : bool :=
  let octets := split "." h in
  (length octets =? 4)%nat && forallb valid_octet octets.

(** A bracketed IPv6 literal: hexadecimal groups separated by colons. *)
Definition valid_ipv6 (h : string) : bool :=
  match drop_prefix "[" h with
  | Some body =>
      let '(inner, close) := break_at (λ c, Ascii.eqb c "]"%char) body in
      String.eqb close "]" && (2 <=? strlen inner)%nat
      && has_char ":"%char inner
      && all_chars (λ c, is_hex c || Ascii.eqb c ":"%char) inner
  | None => false
  end.

Definition valid_port (p : string) : bool :=
  (1 <=? strlen p)%nat && (strlen p <=? 5)%nat && all_chars is_digit p.

(** Host with an optional [:port]. *)
Definition valid_authority (a : string) : bool :=
  if startswith "[" a then
    let '(inner, rest) := break_at (λ c, Ascii.eqb c "]"%char) a in
    match rest with
    | String _ after =>
        valid_ipv6 (inner +:+ "]")
        && match after with
           | EmptyString => true
           | String c port => Ascii.eqb c ":"%char && valid_port port
           end
    | EmptyString => false
    end
  else
    let '(host, rest) := break_at (λ c, Ascii.eqb c ":"%char) a in
    (valid_ipv4 host || valid_domain host)
    && match rest with
       | EmptyString => true
       | String _ port => valid_port port
       end.

Definition drop_scheme (url : string) : option string :=
  match drop_prefix "http://" url with
  | Some rest => Some rest
  | None =>
      match drop_prefix "https://" url with
      | Some rest => Some rest
      | None => drop_prefix "ftp://" url
      end
  end.

(** Modelled from the spec: [validators.url], which is not part of the
    repository.  Section 4.1 of the specification: the scheme is restricted
    to http/https-like registered schemes; the authority is a syntactically
    valid host (an IPv4 or IPv6 literal, or a domain name whose last label
    has the shape of a TLD) with an optional port; path, query and fragment
    are optional; there is no network access and malformed input, the empty
    string included, is rejected. *)
Definition url_grammar (url : string) : bool :=
  match drop_scheme url with
  | None => false
  | Some rest =>
      let '(authority, tail) :=
        break_at (λ c, Ascii.eqb c "/"%char || Ascii.eqb c "?"%char
                       || Ascii.eqb c "#"%char) rest in
      valid_authority authority && all_chars (λ c, negb (isspace c)) tail
  end.

(** ** Reading a trace

    The pipeline stage an observable action belongs to.  Log records are
    recognised by the fixed text the module puts in front of the URL or
    path. *)

Inductive stage : Type :=
  | UrlSyntax
  | NetworkFetch
  | HttpStatus
  | ContentType
  | FileSystem.

Definition stage_rank (s : stage) : nat :=
  match s with
  | UrlSyntax => 0
  | NetworkFetch => 1
  | HttpStatus => 2
  | ContentType => 3
  | FileSystem => 4
  end.

Definition log_stage (msg : string) : option stage :=
  if startswith "Invalid URL: " msg || startswith "URL is valid: " msg
  then Some UrlSyntax
  else if startswith "Request timed out for URL: " msg
          || startswith "Failed to download image: " msg
  then Some NetworkFetch
  else if startswith "HTTP error when trying to access: " msg
          || startswith "HTTP 200 received on URL: " msg
  then Some HttpStatus
  else if startswith "Content of the URL is not an image: " msg
          || startswith "Content of URL is image/*: " msg
  then Some ContentType
  else if startswith "File already exists, skipping image: " msg
          || startswith "Saved image to: " msg
          || startswith "Could not save downloaded image to: " msg
          || startswith "Successfully downloaded image: " msg
  then Some FileSystem
  else None.

Definition stage_of (e : event) : option stage :=
  match e with
  | Log _ msg => log_stage msg
  | HttpGet _ _ => Some NetworkFetch
  | PathExists _ => Some FileSystem
  | OpenWrite _ => Some FileSystem
  | OpenRead _ => None
  | MakeDirs _ => None
  end.

(** Every action belongs to a stage, and the stages never go backwards. *)
Fixpoint in_pipeline_order (prev : nat) (t : list event) : bool :=
  match t with
  | [] => true
  | e :: t' =>
      match stage_of e with
      | Some s => (prev <=? stage_rank s)%nat && in_pipeline_order (stage_rank s) t'
      | None => false
      end
  end.

(** The verdict of [is_valid_url] that a log record reports, with the URL
    it is about. *)
Definition url_verdict (e : event) : option (string * bool) :=
  match e with
  | Log ERROR msg => (λ u, (u, false)) <$> drop_prefix "Invalid URL: " msg
  | Log DEBUG msg => (λ u, (u, true)) <$> drop_prefix "URL is valid: " msg
  | _ => None
  end.

Definition is_http_get (e : event) : bool :=
  match e with HttpGet _ _ => true | _ => false end.

Definition is_open_write (e : event) : bool :=
  match e with OpenWrite _ => true | _ => false end.

Definition is_open_read (e : event) : bool :=
  match e with OpenRead _ => true | _ => false end.

Definition is_makedirs (e : event) : bool :=
  match e with MakeDirs _ => true | _ => false end.

(** Whatever answers the request for [url], if it is a response it carries
    a content-type header. *)
Definition answers_with_content_type (env : Env) (timeout : Q) (url : string) : bool :=
  match requests_get env url timeout with
  | Responded r =>
      match content_type r with
      | Some _ => true
      | None => false
      end
  | _ => true
  end.

(** ** A small world to run the module in *)

Definition nl : string := String LF EmptyString.

(** The defaults of the command line. *)
Definition default_dest_dir : string := "image_downloads".
Definition default_timeout : Q := 5%Q.
Definition default_processes : Z := 10.

Definition test_get (url : string) (timeout : Q) : NetResult :=
  if String.eqb url "http://media.test.com/image.jpg?v=2&c=4"
  then Responded (mkResponse 200 (Some "image/jpeg") "ABC")
  else if String.eqb url "http://media.test.com/somewhere/index.jpg"
  then Responded (mkResponse 404 (Some "text/html") "Not found")
  else if String.eqb url "http://media.test.com/index.php"
  then Responded (mkResponse 200 (Some "text/html") "<html></html>")
  else if String.eqb url "http://media.test.com/bare.jpg"
  then Responded (mkResponse 200 None "ABC")
  else if String.eqb url "http://slow.test.com/image.jpg"
  then TimedOut
  else TransportError.

Definition test_env : Env := mkEnv url_grammar test_get (λ _, false).

(** The response that the unit tests of the repository register. *)
Definition image_response : Response :=
  mkResponse 200 (Some "image/jpg") "I am an image".

Definition urls_txt : string :=
  "isjdfsdfpwej42423n4k235" +:+ nl +:+
  "http://media.test.com/somewhere/index.jpg" +:+ nl +:+
  "  http://media.test.com/image.jpg?v=2&c=4" +:+ nl.

Definition test_fs : FS :=
  {[ "urls.txt" := File urls_txt;
     "one_bad.txt" := File "isjdfsdfpwej42423n4k235";
     "one_good.txt" := File "http://media.test.com/image.jpg?v=2&c=4";
     "image_downloads" := Dir;
     "image_downloads/old.jpg" := File "old bytes";
     "readme" := File "not a directory" ]}.

(** A URL file of five lines, the first of them a URL that is answered
    without a content-type header. *)
Definition chunk_txt : string :=
  "http://media.test.com/bare.jpg" +:+ nl +:+
  "http://media.test.com/image.jpg?v=2&c=4" +:+ nl +:+
  "http://media.test.com/index.php" +:+ nl +:+
  "http://media.test.com/somewhere/index.jpg" +:+ nl +:+
  "isjdfsdfpwej42423n4k235" +:+ nl.

Definition chunk_fs : FS := <["chunk.txt" := File chunk_txt]> test_fs.

(** U+00A0, the no-break space, and U+3000, the ideographic space, in
    UTF-8. *)
Definition no_break_space : string :=
  String (ascii_of_nat 194) (String (ascii_of_nat 160) EmptyString).
Definition ideographic_space : string :=
  String (ascii_of_nat 227) (String (ascii_of_nat 128)
    (String (ascii_of_nat 128) EmptyString)).

(** A URL file whose only line is framed by white space beyond ASCII. *)
Definition spaced_fs : FS :=
  <["spaced.txt" := File (no_break_space +:+ "http://media.test.com/image.jpg?v=2&c=4"
                          +:+ ideographic_space +:+ nl)]> test_fs.

(** ** Verbosity *)

(** The numeric value [logging] gives a level. *)
Definition level_value (l : level) : Z :=
  match l with
  | DEBUG => 10
  | INFO => 20
  | WARNING => 30
  | ERROR => 40
  | CRITICAL => 50
  end.

(** The dictionary of [logging_level_from_verbosity]; the key [None] is
    the count [argparse] reports when no [-v] was given. *)
Definition logging_levels : gmap (option Z) level :=
  {[ None := CRITICAL; Some 1 := ERROR; Some 2 := WARNING; Some 3 := INFO;
     Some 4 := DEBUG ]}.

Definition logging_level_from_verbosity (verbosity : option Z) : level :=
  match logging_levels !! verbosity with
  | Some l => l
  | None => DEBUG
  end.

(** ** The trace of an item up to its existence test *)

(** What a run of [download_single_image] emits when the URL is valid, the
    response has status 200 and an image content type, up to and including
    the existence test on the destination path. *)
Definition passed_checks (url : string) (timeout : Q) (path : string) : list event :=
  [Log DEBUG ("URL is valid: " +:+ url); HttpGet url timeout;
   Log DEBUG ("HTTP 200 received on URL: " +:+ url);
   Log DEBUG ("Content of URL is image/*: " +:+ url);
   PathExists path].

(** ** Reports and passing items *)

(** A log record that tells the user what became of an item. *)
Definition is_report (e : event) : bool :=
  match e with
  | Log ERROR _ => true
  | Log INFO _ => true
  | _ => false
  end.

(** The URL is valid and is answered by a truthy response with status 200
    and an image content type: the item reaches the file system. *)
Definition passes_checks (env : Env) (url : string) (timeout : Q) : bool :=
  validators_url env url
  && match requests_get env url timeout with
     | Responded r =>
         response_ok r && (status_code r =? 200)
         && match content_type r with
            | Some ct => str_contains "image" ct
            | None => false
            end
     | _ => false
     end.

(** ** Plain paths *)

(** A path that [os.makedirs] stores as it is written: its components are
    separated by single slashes (a trailing slash apart). *)
Definition plain_path (p : string) : bool :=
  String.eqb
    (List.last (path_prefixes (startswith "/" p) "" (split slash p)) EmptyString)
    (rstrip_slash p).

(** ** URL files *)

(** A text file with one entry per line, every line closed by [eol]. *)
Fixpoint unlines (eol : string) (entries : list string) : string :=
  match entries with
  | [] => EmptyString
  | e :: es => e +:+ eol +:+ unlines eol es
  end.

Definition crlf : string := String CR nl.

(** Text written with printable ASCII characters other than the space,
    as a URL is. *)
Definition url_text (s : string) : bool := all_chars (in_range 33 126) s.

(** * Properties *)

(** ** Indexing and splitting *)

Lemma py_getitem_first {A} (x : A) (l : list A) : py_getitem (x :: l) 0 = Ret x.
Proof.
  unfold py_getitem.
  replace (0 <? 0) with false by reflexivity.
  replace (0 <=? 0) with true by reflexivity.
  replace (0 <? Z.of_nat (length (x :: l))) with true; [reflexivity|].
  symmetry. apply Z.ltb_lt. cbn [length]. lia.
Qed.

Lemma py_getitem_last {A} (l : list A) (d : A) :
  l ≠ [] → py_getitem l (-1) = Ret (List.last l d).
Proof.
  intros Hne. unfold py_getitem.
  replace (-1 <? 0) with true by reflexivity.
  destruct (exists_last Hne) as (l' & x & ->).
  rewrite List.last_last, length_app. cbn [length].
  replace (Z.of_nat (length l' + 1) + -1) with (Z.of_nat (length l')) by lia.
  replace (0 <=? Z.of_nat (length l')) with true by (symmetry; apply Z.leb_le; lia).
  replace (Z.of_nat (length l') <? Z.of_nat (length l' + 1)) with true
    by (symmetry; apply Z.ltb_lt; lia).
  cbn [andb]. rewrite Nat2Z.id.
  rewrite lookup_app_r by lia. by rewrite Nat.sub_diag.
Qed.

Lemma split_nonempty sep s : split sep s ≠ [].
Proof.
  destruct s as [|c s]; cbn; [done|].
  destruct (Ascii.eqb c sep); [done|]. by destruct (split sep s).
Qed.

Lemma str_app_cons (x : ascii) (a b : string) : String x a +:+ b = String x (a +:+ b).
Proof. reflexivity. Qed.

Lemma str_app_assoc (a b c : string) : (a +:+ b) +:+ c = a +:+ (b +:+ c).
Proof. induction a as [|x a IH]; [done|]. rewrite !str_app_cons. by rewrite IH. Qed.

(** The first piece of a split is the text before the first separator. *)
Lemma split_head sep s :
  ∃ f fs rest, split sep s = f :: fs ∧ s = f +:+ rest ∧ has_char sep f = false
    ∧ (rest = "" ∨ ∃ r, rest = String sep r).
Proof.
  induction s as [|c s IH].
  - exists "", [], "". cbn. eauto.
  - cbn [split]. destruct (Ascii.eqb c sep) eqn:E.
    + apply Ascii.eqb_eq in E as ->.
      exists "", (split sep s), (String sep s). cbn. eauto 6.
    + destruct IH as (f & fs & rest & Hs & -> & Hf & Hr).
      rewrite Hs. exists (String c f), fs, rest. cbn [has_char]. rewrite E, Hf. eauto.
Qed.

(** The last piece of a split is the text after the last separator; it is
    the whole string exactly when the split has a single piece. *)
Lemma split_last sep s :
  ∃ l, List.last (split sep s) "" = l ∧ has_char sep l = false
    ∧ ((l = s ∧ split sep s = [s])
       ∨ ((∃ p, s = p +:+ String sep l) ∧ ∃ x y ys, split sep s = x :: y :: ys)).
Proof.
  induction s as [|c s IH].
  - exists "". cbn. eauto.
  - destruct IH as (l & Hl & Hc & Hs).
    cbn [split]. destruct (Ascii.eqb c sep) eqn:E.
    + apply Ascii.eqb_eq in E as ->. exists l.
      destruct (split sep s) as [|x xs] eqn:Hsp; [by destruct (split_nonempty sep s)|].
      split; [done|]. split; [done|]. right. split; [|eauto].
      destruct Hs as [[-> _]|[(p & ->) _]]; [by exists ""|by exists (String sep p)].
    + destruct Hs as [[-> Hsp]|[(p & ->) (x & y & ys & Hsp)]]; rewrite Hsp.
      * exists (String c s). cbn [List.last has_char]. rewrite E, Hc. eauto.
      * exists l. split; [by rewrite Hsp in Hl|]. split; [done|]. right.
        split; [by exists (String c p)|eauto].
Qed.

Lemma get_filename_from_url_decompose url :
  ∃ pre name query,
    get_filename_from_url url = Ret name
    ∧ url = pre +:+ name +:+ query
    ∧ (pre = "" ∨ ∃ p, pre = p +:+ "/")
    ∧ has_char "/" (name +:+ query) = false
    ∧ has_char "?" name = false
    ∧ (query = "" ∨ ∃ q, query = String "?" q).
Proof.
  unfold get_filename_from_url.
  rewrite (py_getitem_last _ "") by apply split_nonempty.
  destruct (split_last "/" url) as (seg & Hlast & Hseg & Hpre).
  rewrite Hlast.
  destruct (split_head "?" seg) as (name & rest & query & Hsp & Hs & Hname & Hq).
  cbn [res_bind]. rewrite Hsp, py_getitem_first.
  assert (∃ pre, url = pre +:+ seg ∧ (pre = "" ∨ ∃ p, pre = p +:+ "/"))
    as (pre & Hurl & Hp).
  { destruct Hpre as [[Heq _]|[(p & Heq) _]].
    - exists "". by eauto.
    - exists (p +:+ "/"). split; [|eauto]. by rewrite str_app_assoc. }
  exists pre, name, query. rewrite <- Hs. eauto 8.
Qed.

Lemma get_filename_from_url_returns url : ∃ name, get_filename_from_url url = Ret name.
Proof. destruct (get_filename_from_url_decompose url) as (_ & name & _ & H & _). eauto. Qed.

(** ** [get_filename_from_url] *)

(** C8.  For every URL, [get_filename_from_url] returns the part of the URL
    that starts right after its last ['/'] and stops before the first ['?']
    that follows: the URL reads [pre ++ name ++ query], where [pre] is empty
    or ends in ['/'], nothing after [pre] contains a ['/'], [name] contains
    no ['?'] and [query] is empty or starts with ['?'].  The name is a
    literal piece of the URL (nothing is decoded).  On
    ["http://media.test.com/image.jpg?v=2&c=4"] the result is
    ["image.jpg"]. *)
Theorem get_filename_from_url_segment :
  (∀ url, ∃ pre name query,
      get_filename_from_url url = Ret name
      ∧ url = pre +:+ name +:+ query
      ∧ (pre = "" ∨ ∃ p, pre = p +:+ "/")
      ∧ has_char "/" (name +:+ query) = false
      ∧ has_char "?" name = false
      ∧ (query = "" ∨ ∃ q, query = String "?" q))
  ∧ get_filename_from_url "http://media.test.com/image.jpg?v=2&c=4" = Ret "image.jpg".
Proof. split; [apply get_filename_from_url_decompose|reflexivity]. Qed.

Lemma has_char_app c a b : has_char c (a +:+ b) = has_char c a || has_char c b.
Proof.
  induction a as [|x a IH]; [done|].
  rewrite str_app_cons. cbn [has_char]. rewrite IH. by rewrite orb_assoc.
Qed.

(** C10.  [get_filename_from_url] is total: on every string it returns and
    does not raise, and the name it returns contains neither ['/'] nor
    ['?']. *)
Theorem get_filename_from_url_clean url :
  ∃ name, get_filename_from_url url = Ret name
          ∧ has_char "/" name = false ∧ has_char "?" name = false.
Proof.
  destruct (get_filename_from_url_decompose url)
    as (pre & name & query & Hret & _ & _ & Hslash & Hq & _).
  exists name. rewrite has_char_app in Hslash.
  apply orb_false_iff in Hslash as [Hslash _]. done.
Qed.

(** ** [is_valid_url] *)

(** C9.  With the URL grammar of the specification in the place of
    [validators.url], [is_valid_url] returns on every string, never raises
    and leaves the file system alone; it returns false exactly on the
    strings the grammar rejects.  The empty string, a string that is no URL
    and a URL with an unknown scheme are rejected, a well-formed https URL
    is accepted. *)
Theorem is_valid_url_never_raises :
  (∀ net denied url fs,
      is_valid_url (mkEnv url_grammar net denied) url fs
      = (Ret (url_grammar url), fs,
         [if url_grammar url
          then Log DEBUG ("URL is valid: " +:+ url)
          else Log ERROR ("Invalid URL: " +:+ url)]))
  ∧ url_grammar "" = false
  ∧ url_grammar "isjdfsdfpwej42423n4k235" = false
  ∧ url_grammar "nonono://somehost.com/image.jpg" = false
  ∧ url_grammar "https://host.com/path/img.png" = true.
Proof.
  split; [|by vm_compute].
  intros net denied url fs. unfold is_valid_url, bind, logger, emit, ret.
  cbn [validators_url]. by destruct (url_grammar url).
Qed.

(** ** One item: [download_single_image] *)

Ltac unfold_pipeline :=
  cbv [download_single_image is_valid_url is_valid_response is_valid_content
       get_image save_image path_exists logger emit bind ret raise lift
       truthy not_in app result final_fs events fst snd].

(** Rewrite with a fact about the environment and reduce the test it
    decides. *)
Tactic Notation "step" constr(H) :=
  rewrite H; try change (200 =? 200) with true; cbn [negb andb].

(** Case analysis on every test the pipeline makes. *)
Ltac case_pipeline :=
  unfold_pipeline;
  match goal with
  | |- context [validators_url ?env ?url] => destruct (validators_url env url) eqn:?
  end;
  cbn [negb andb];
  repeat (case_match; cbn [negb andb] in *; simplify_eq).

Lemma response_ok_false r : 400 ≤ status_code r < 600 → response_ok r = false.
Proof.
  intros [Hlo Hhi]. unfold response_ok.
  apply Z.leb_le in Hlo. apply Z.ltb_lt in Hhi. by rewrite Hlo, Hhi.
Qed.

Lemma response_ok_200 r : status_code r = 200 → response_ok r = true.
Proof. intros H. unfold response_ok. by rewrite H. Qed.

(** C1.  What the code does with a completed response whose status is an
    HTTP error (400 to 599, 404 among them): [requests] gives such a
    response the truth value false, so [download_single_image] leaves at
    [if not image] as if nothing had been fetched.  [is_valid_response] is
    not reached and its error record is not logged, although on that same
    response it would log the HTTP error and return false. *)
Theorem http_error_response_skips_status_check env url dest replace timeout fs r :
  validators_url env url = true →
  requests_get env url timeout = Responded r →
  400 ≤ status_code r < 600 →
  download_single_image env url dest replace timeout fs
    = (Ret false, fs, [Log DEBUG ("URL is valid: " +:+ url); HttpGet url timeout])
  ∧ is_valid_response r url fs
    = (Ret false, fs, [Log ERROR ("HTTP error when trying to access: " +:+ url)]).
Proof.
  intros Hv Hn Hs. split.
  - unfold_pipeline. step Hv. step Hn. step (response_ok_false r Hs). reflexivity.
  - unfold_pipeline. replace (status_code r =? 200) with false; [done|].
    symmetry. apply Z.eqb_neq. lia.
Qed.

Lemma http_error_response_skips_status_check_witness :
  let url := "http://media.test.com/somewhere/index.jpg" in
  download_single_image test_env url default_dest_dir false default_timeout test_fs
    = (Ret false, test_fs,
       [Log DEBUG ("URL is valid: " +:+ url); HttpGet url default_timeout])
  ∧ is_valid_response (mkResponse 404 (Some "text/html") "Not found") url test_fs
    = (Ret false, test_fs, [Log ERROR ("HTTP error when trying to access: " +:+ url)]).
Proof.
  apply (http_error_response_skips_status_check test_env
           "http://media.test.com/somewhere/index.jpg" default_dest_dir false
           default_timeout test_fs (mkResponse 404 (Some "text/html") "Not found"));
    [reflexivity | reflexivity | cbn; lia].
Defined.

(** C2.  What the code does with a response that has no content-type
    header: [headers.get] yields [None], the membership test on [None]
    raises [TypeError], [is_valid_content] does not catch it and neither
    does [download_single_image]. *)
Theorem missing_content_type_raises env url dest replace timeout fs r :
  validators_url env url = true →
  requests_get env url timeout = Responded r →
  status_code r = 200 →
  content_type r = None →
  is_valid_content r url fs = (Raise TypeError, fs, [])
  ∧ download_single_image env url dest replace timeout fs
    = (Raise TypeError, fs,
       [Log DEBUG ("URL is valid: " +:+ url); HttpGet url timeout;
        Log DEBUG ("HTTP 200 received on URL: " +:+ url)]).
Proof.
  intros Hv Hn Hs Hc. split.
  - unfold_pipeline. by rewrite Hc.
  - unfold_pipeline. step Hv. step Hn. step (response_ok_200 r Hs). step Hs. step Hc.
    reflexivity.
Qed.

Lemma missing_content_type_raises_witness :
  let url := "http://media.test.com/bare.jpg" in
  is_valid_content (mkResponse 200 None "ABC") url test_fs = (Raise TypeError, test_fs, [])
  ∧ download_single_image test_env url default_dest_dir false default_timeout test_fs
    = (Raise TypeError, test_fs,
       [Log DEBUG ("URL is valid: " +:+ url); HttpGet url default_timeout;
        Log DEBUG ("HTTP 200 received on URL: " +:+ url)]).
Proof.
  apply (missing_content_type_raises test_env "http://media.test.com/bare.jpg"
           default_dest_dir false default_timeout test_fs (mkResponse 200 None "ABC"));
    reflexivity.
Defined.

(** C3.  What the code does when the write fails: [save_image] catches the
    error, logs it and returns false without raising, and the file system
    is as before; [download_single_image] does not look at that value, logs
    a success and returns true. *)
Theorem write_failure_reported_as_success env url dest replace timeout fs r ct name :
  validators_url env url = true →
  requests_get env url timeout = Responded r →
  status_code r = 200 →
  content_type r = Some ct →
  str_contains "image" ct = true →
  get_filename_from_url url = Ret name →
  os_path_exists fs (os_path_join dest name) && negb replace = false →
  write_file env fs (os_path_join dest name) (content r) = None →
  let path := os_path_join dest name in
  save_image env r path fs
    = (Ret false, fs,
       [OpenWrite path; Log ERROR ("Could not save downloaded image to: " +:+ path)])
  ∧ download_single_image env url dest replace timeout fs
    = (Ret true, fs,
       [Log DEBUG ("URL is valid: " +:+ url); HttpGet url timeout;
        Log DEBUG ("HTTP 200 received on URL: " +:+ url);
        Log DEBUG ("Content of URL is image/*: " +:+ url);
        PathExists path; OpenWrite path;
        Log ERROR ("Could not save downloaded image to: " +:+ path);
        Log INFO ("Successfully downloaded image: " +:+ path)]).
Proof.
  intros Hv Hn Hs Hc Hi Hf He Hw path. subst path. split.
  - unfold_pipeline. by rewrite Hw.
  - unfold_pipeline. step Hv. step Hn. step (response_ok_200 r Hs). step Hs. step Hc.
    step Hi. step Hf. step He. step Hw. reflexivity.
Qed.

Lemma write_failure_reported_as_success_witness :
  let url := "http://media.test.com/image.jpg?v=2&c=4" in
  let path := "jiofdgndfgng/image.jpg" in
  save_image test_env (mkResponse 200 (Some "image/jpeg") "ABC") path test_fs
    = (Ret false, test_fs,
       [OpenWrite path; Log ERROR ("Could not save downloaded image to: " +:+ path)])
  ∧ download_single_image test_env url "jiofdgndfgng" false default_timeout test_fs
    = (Ret true, test_fs,
       [Log DEBUG ("URL is valid: " +:+ url); HttpGet url default_timeout;
        Log DEBUG ("HTTP 200 received on URL: " +:+ url);
        Log DEBUG ("Content of URL is image/*: " +:+ url);
        PathExists path; OpenWrite path;
        Log ERROR ("Could not save downloaded image to: " +:+ path);
        Log INFO ("Successfully downloaded image: " +:+ path)]).
Proof.
  apply (write_failure_reported_as_success test_env
           "http://media.test.com/image.jpg?v=2&c=4" "jiofdgndfgng" false
           default_timeout test_fs (mkResponse 200 (Some "image/jpeg") "ABC")
           "image/jpeg" "image.jpg");
    reflexivity.
Defined.

Lemma download_single_image_in_order env url dest replace timeout fs :
  in_pipeline_order 0 (events (download_single_image env url dest replace timeout fs))
  = true.
Proof.
  destruct (get_filename_from_url_returns url) as (name & Hname).
  case_pipeline; vm_compute; reflexivity.
Qed.

(** C4.  Every run of [download_single_image], case by case.  The checks
    run in the order URL syntax, network fetch, HTTP status, content type,
    file system: in every run the stages of the observable actions never go
    backwards, and a test that fails by returning false ends the run at
    once, with the value false, the file system untouched and no action of
    a later stage: an invalid URL is neither fetched nor written; a failed
    fetch is followed by no status check; a status other than 200 by no
    content-type check; a content type without "image" by no file-system
    call; an existing file that must not be replaced by no write.  Three
    runs do not end with the outcome of the check that fails.  A response
    with an error status (400 to 599) ends the run at the fetch test, with
    no record.  A response with status 200 and no content-type header ends
    the run with [TypeError], raised by the content-type check: the run
    returns no value.  And a write that fails ends the run with the value
    true and the record of a successful download. *)
Theorem checks_in_order_short_circuit env url dest replace timeout fs r ct name :
  let o := download_single_image env url dest replace timeout fs in
  let valid := Log DEBUG ("URL is valid: " +:+ url) in
  let get := HttpGet url timeout in
  let status_ok := Log DEBUG ("HTTP 200 received on URL: " +:+ url) in
  let is_image := Log DEBUG ("Content of URL is image/*: " +:+ url) in
  let path := os_path_join dest name in
  in_pipeline_order 0 (events o) = true
  ∧ (validators_url env url = false →
       o = (Ret false, fs, [Log ERROR ("Invalid URL: " +:+ url)]))
  ∧ (validators_url env url = true →
       (requests_get env url timeout = TimedOut →
          o = (Ret false, fs,
               [valid; get; Log ERROR ("Request timed out for URL: " +:+ url)]))
     ∧ (requests_get env url timeout = TransportError →
          o = (Ret false, fs,
               [valid; get; Log ERROR ("Failed to download image: " +:+ url)]))
     ∧ (requests_get env url timeout = Responded r →
          (response_ok r = false → o = (Ret false, fs, [valid; get]))
        ∧ (response_ok r = true → status_code r ≠ 200 →
             o = (Ret false, fs,
                  [valid; get;
                   Log ERROR ("HTTP error when trying to access: " +:+ url)]))
        ∧ (status_code r = 200 → content_type r = None →
             o = (Raise TypeError, fs, [valid; get; status_ok]))
        ∧ (status_code r = 200 → content_type r = Some ct →
             (str_contains "image" ct = false →
                o = (Ret false, fs,
                     [valid; get; status_ok;
                      Log ERROR ("Content of the URL is not an image: " +:+ url)]))
           ∧ (str_contains "image" ct = true →
              get_filename_from_url url = Ret name →
                (os_path_exists fs path && negb replace = true →
                   o = (Ret false, fs,
                        [valid; get; status_ok; is_image; PathExists path;
                         Log INFO ("File already exists, skipping image: " +:+ path)]))
              ∧ (os_path_exists fs path && negb replace = false →
                   (∀ fs', write_file env fs path (content r) = Some fs' →
                      o = (Ret true, fs',
                           [valid; get; status_ok; is_image; PathExists path;
                            OpenWrite path; Log DEBUG ("Saved image to: " +:+ path);
                            Log INFO ("Successfully downloaded image: " +:+ path)]))
                 ∧ (write_file env fs path (content r) = None →
                      o = (Ret true, fs,
                           [valid; get; status_ok; is_image; PathExists path;
                            OpenWrite path;
                            Log ERROR ("Could not save downloaded image to: " +:+ path);
                            Log INFO ("Successfully downloaded image: " +:+ path)]))))))).
Proof.
  intros o valid get status_ok is_image path. subst o valid get status_ok is_image path.
  split; [apply download_single_image_in_order|].
  split; [intros Hv; unfold_pipeline; step Hv; reflexivity|].
  intros Hv. split; [|split].
  - intros Hn. unfold_pipeline. step Hv. step Hn. reflexivity.
  - intros Hn. unfold_pipeline. step Hv. step Hn. reflexivity.
  - intros Hn. split; [|split; [|split]].
    + intros Hok. unfold_pipeline. step Hv. step Hn. step Hok. reflexivity.
    + intros Hok Hs. apply Z.eqb_neq in Hs.
      unfold_pipeline. step Hv. step Hn. step Hok. step Hs. reflexivity.
    + intros Hs Hc. unfold_pipeline.
      step Hv. step Hn. step (response_ok_200 r Hs). step Hs. step Hc. reflexivity.
    + intros Hs Hc. split.
      * intros Hi. unfold_pipeline.
        step Hv. step Hn. step (response_ok_200 r Hs). step Hs. step Hc. step Hi.
        reflexivity.
      * intros Hi Hf. split; [|intros He; split].
        -- intros He. unfold_pipeline.
           step Hv. step Hn. step (response_ok_200 r Hs). step Hs. step Hc. step Hi.
           step Hf. step He. reflexivity.
        -- intros fs' Hw. unfold_pipeline.
           step Hv. step Hn. step (response_ok_200 r Hs). step Hs. step Hc. step Hi.
           step Hf. step He. step Hw. reflexivity.
        -- intros Hw. unfold_pipeline.
           step Hv. step Hn. step (response_ok_200 r Hs). step Hs. step Hc. step Hi.
           step Hf. step He. step Hw. reflexivity.
Qed.

Lemma checks_in_order_short_circuit_witness :
  let run := λ url, download_single_image test_env url default_dest_dir false
                      default_timeout test_fs in
  run "isjdfsdfpwej42423n4k235"
    = (Ret false, test_fs, [Log ERROR ("Invalid URL: " +:+ "isjdfsdfpwej42423n4k235")])
  ∧ run "http://slow.test.com/image.jpg"
    = (Ret false, test_fs,
       [Log DEBUG ("URL is valid: " +:+ "http://slow.test.com/image.jpg");
        HttpGet "http://slow.test.com/image.jpg" default_timeout;
        Log ERROR ("Request timed out for URL: " +:+ "http://slow.test.com/image.jpg")])
  ∧ run "http://media.test.com/index.php"
    = (Ret false, test_fs,
       [Log DEBUG ("URL is valid: " +:+ "http://media.test.com/index.php");
        HttpGet "http://media.test.com/index.php" default_timeout;
        Log DEBUG ("HTTP 200 received on URL: " +:+ "http://media.test.com/index.php");
        Log ERROR ("Content of the URL is not an image: "
                   +:+ "http://media.test.com/index.php")])
  ∧ run "http://media.test.com/bare.jpg"
    = (Raise TypeError, test_fs,
       [Log DEBUG ("URL is valid: " +:+ "http://media.test.com/bare.jpg");
        HttpGet "http://media.test.com/bare.jpg" default_timeout;
        Log DEBUG ("HTTP 200 received on URL: " +:+ "http://media.test.com/bare.jpg")])
  ∧ run "http://media.test.com/somewhere/index.jpg"
    = (Ret false, test_fs,
       [Log DEBUG ("URL is valid: " +:+ "http://media.test.com/somewhere/index.jpg");
        HttpGet "http://media.test.com/somewhere/index.jpg" default_timeout]).
Proof.
  intros run. subst run. split; [|split; [|split; [|split]]].
  - apply (checks_in_order_short_circuit test_env "isjdfsdfpwej42423n4k235"
             default_dest_dir false default_timeout test_fs
             (mkResponse 200 None "") "" "").
    reflexivity.
  - apply (checks_in_order_short_circuit test_env "http://slow.test.com/image.jpg"
             default_dest_dir false default_timeout test_fs
             (mkResponse 200 None "") "" "");
      reflexivity.
  - apply (checks_in_order_short_circuit test_env "http://media.test.com/index.php"
             default_dest_dir false default_timeout test_fs
             (mkResponse 200 (Some "text/html") "<html></html>") "text/html" "");
      reflexivity.
  - apply (checks_in_order_short_circuit test_env "http://media.test.com/bare.jpg"
             default_dest_dir false default_timeout test_fs
             (mkResponse 200 None "ABC") "" "");
      reflexivity.
  - apply (checks_in_order_short_circuit test_env
             "http://media.test.com/somewhere/index.jpg"
             default_dest_dir false default_timeout test_fs
             (mkResponse 404 (Some "text/html") "Not found") "" "");
      reflexivity.
Defined.

(** A path that names a regular file is looked up as it is written. *)
Lemma lookup_path_file (fs : FS) p d :
  lookup_path fs p = Some (File d) → ∀ fs' : FS, lookup_path fs' p = fs' !! p.
Proof.
  unfold lookup_path. intros H fs'.
  destruct (String.eqb p ""); [done|].
  destruct (ends_with_slash p); [|done].
  destruct (String.eqb (rstrip_slash p) ""); [done|].
  by destruct (fs !! rstrip_slash p) as [[]|].
Qed.

(** C7.  For an item that passes every check and whose destination path
    names an existing file: without [replace_duplicates] the run stops
    after the existence test with the value false, the file is not opened
    and the file system, hence the file's bytes, is unchanged; with
    [replace_duplicates], and the operating system not refusing the write,
    the file is opened, holds the response body afterwards, and the run
    returns true. *)
Theorem existing_file_policy env url dest timeout fs r ct name old :
  validators_url env url = true →
  requests_get env url timeout = Responded r →
  status_code r = 200 →
  content_type r = Some ct →
  str_contains "image" ct = true →
  get_filename_from_url url = Ret name →
  lookup_path fs (os_path_join dest name) = Some (File old) →
  let path := os_path_join dest name in
  let checks :=
    [Log DEBUG ("URL is valid: " +:+ url); HttpGet url timeout;
     Log DEBUG ("HTTP 200 received on URL: " +:+ url);
     Log DEBUG ("Content of URL is image/*: " +:+ url);
     PathExists path] in
  download_single_image env url dest false timeout fs
    = (Ret false, fs,
       checks ++ [Log INFO ("File already exists, skipping image: " +:+ path)])
  ∧ (os_denied env path = false →
       download_single_image env url dest true timeout fs
         = (Ret true, <[path := File (content r)]> fs,
            checks ++ [OpenWrite path; Log DEBUG ("Saved image to: " +:+ path);
                       Log INFO ("Successfully downloaded image: " +:+ path)])
       ∧ lookup_path (<[path := File (content r)]> fs) path = Some (File (content r))).
Proof.
  intros Hv Hn Hs Hc Hi Hf Hold path checks. subst path checks.
  assert (os_path_exists fs (os_path_join dest name) = true) as He
    by (unfold os_path_exists; by rewrite Hold).
  split; [|intros Hd; split].
  - unfold_pipeline. step Hv. step Hn. step (response_ok_200 r Hs). step Hs. step Hc.
    step Hi. step Hf. step He. reflexivity.
  - unfold_pipeline. step Hv. step Hn. step (response_ok_200 r Hs). step Hs. step Hc.
    step Hi. step Hf. step He. unfold write_file. rewrite Hd, Hold. reflexivity.
  - rewrite (lookup_path_file fs _ old Hold). apply lookup_insert_eq.
Qed.

Lemma existing_file_policy_witness :
  let url := "http://media.test.com/old.jpg?v=1" in
  let env := mkEnv url_grammar
               (λ _ _, Responded (mkResponse 200 (Some "image/jpeg") "new bytes"))
               (λ _, false) in
  final_fs (download_single_image env url default_dest_dir false default_timeout test_fs)
    = test_fs
  ∧ lookup_path
      (final_fs (download_single_image env url default_dest_dir true default_timeout
                   test_fs))
      "image_downloads/old.jpg"
    = Some (File "new bytes").
Proof.
  intros url env.
  pose proof (existing_file_policy env url default_dest_dir default_timeout test_fs
                (mkResponse 200 (Some "image/jpeg") "new bytes") "image/jpeg"
                "old.jpg" "old bytes"
                eq_refl eq_refl eq_refl eq_refl eq_refl eq_refl eq_refl) as [Hskip Hrep].
  split.
  - by rewrite Hskip.
  - destruct (Hrep eq_refl) as [Hrun Hlook]. by rewrite Hrun.
Defined.

Lemma download_single_image_frame env url dest replace timeout fs :
  result (download_single_image env url dest replace timeout fs) ≠ Ret true →
  final_fs (download_single_image env url dest replace timeout fs) = fs.
Proof.
  destruct (get_filename_from_url_returns url) as (name & Hname).
  case_pipeline; done.
Qed.

Lemma download_single_image_verdict env url dest replace timeout fs :
  omap url_verdict (events (download_single_image env url dest replace timeout fs))
  = [(url, validators_url env url)].
Proof.
  destruct (get_filename_from_url_returns url) as (name & Hname).
  case_pipeline; vm_compute; reflexivity.
Qed.

Lemma download_single_image_no_makedirs env url dest replace timeout fs :
  forallb (λ e, negb (is_makedirs e))
    (events (download_single_image env url dest replace timeout fs)) = true.
Proof.
  destruct (get_filename_from_url_returns url) as (name & Hname).
  case_pipeline; reflexivity.
Qed.

(** With a content-type header on every response, a run returns a
    Boolean. *)
Lemma download_single_image_returns env url dest replace timeout fs :
  (∀ r, requests_get env url timeout = Responded r → is_Some (content_type r)) →
  ∃ b, result (download_single_image env url dest replace timeout fs) = Ret b.
Proof.
  intros Hh.
  destruct (get_filename_from_url_returns url) as (name & Hname).
  destruct (requests_get env url timeout) as [r| |] eqn:Hn.
  - destruct (Hh r eq_refl) as (ct & Hct). case_pipeline; eauto.
  - case_pipeline; eauto.
  - case_pipeline; eauto.
Qed.

Lemma workers_return env dest replace timeout urls :
  forallb (answers_with_content_type env timeout) urls = true →
  ∀ u fs', u ∈ urls →
    ∃ b, result (download_single_image env u dest replace timeout fs') = Ret b.
Proof.
  intros Hh u fs' Hin%list_elem_of_In.
  apply download_single_image_returns. intros r Hr.
  rewrite forallb_forall in Hh. specialize (Hh u Hin).
  unfold answers_with_content_type in Hh. rewrite Hr in Hh.
  by destruct (content_type r).
Qed.

(** ** The pool *)

Lemma map_async_wait_returns worker urls fs :
  ∃ rs, result (map_async_wait worker urls fs) = Ret rs ∧ length rs = length urls.
Proof.
  revert fs. induction urls as [|u us IH]; intros fs; cbn [map_async_wait].
  - by exists [].
  - destruct (worker u fs) as [[r fs1] t1].
    destruct (IH fs1) as (rs & Hrs & Hlen).
    destruct (map_async_wait worker us fs1) as [[rs' fs2] t2].
    cbn in Hrs. subst rs'. exists (r :: rs). cbn. by rewrite Hlen.
Qed.

Lemma map_async_wait_cons worker u us fs :
  map_async_wait worker (u :: us) fs
  = (res_bind (result (map_async_wait worker us (final_fs (worker u fs))))
       (λ l, Ret (result (worker u fs) :: l)),
     final_fs (map_async_wait worker us (final_fs (worker u fs))),
     events (worker u fs) ++ events (map_async_wait worker us (final_fs (worker u fs)))).
Proof.
  cbn [map_async_wait]. destruct (worker u fs) as [[r fs1] t1]. cbn.
  by destruct (map_async_wait worker us fs1) as [[rs fs2] t2].
Qed.

Lemma map_async_wait_verdicts env dest replace timeout urls fs :
  omap url_verdict
    (events (map_async_wait
               (λ url, download_single_image env url dest replace timeout) urls fs))
  = (λ u, (u, validators_url env u)) <$> urls.
Proof.
  revert fs. induction urls as [|u us IH]; intros fs; [done|].
  rewrite map_async_wait_cons. cbn [events snd].
  rewrite omap_app, IH.
  by rewrite (download_single_image_verdict env u dest replace timeout fs).
Qed.

(** *** Tasks and chunks *)

Lemma mapstar_cons worker u us fs :
  mapstar worker (u :: us) fs
  = match result (worker u fs) with
    | Ret b =>
        (res_bind (result (mapstar worker us (final_fs (worker u fs))))
           (λ bs, Ret (b :: bs)),
         final_fs (mapstar worker us (final_fs (worker u fs))),
         events (worker u fs) ++ events (mapstar worker us (final_fs (worker u fs))))
    | Raise e => (Raise e, final_fs (worker u fs), events (worker u fs))
    end.
Proof.
  cbn [mapstar]. unfold bind at 1. destruct (worker u fs) as [[[b|e] fs1] t1]; cbn; [|done].
  unfold bind, ret. destruct (mapstar worker us fs1) as [[[bs|e] fs2] t2]; cbn; [|done].
  by rewrite List.app_nil_r.
Qed.

Lemma run_tasks_cons worker t ts fs :
  run_tasks worker (t :: ts) fs
  = (res_bind (result (run_tasks worker ts (final_fs (mapstar worker t fs))))
       (λ l, Ret (result (mapstar worker t fs) :: l)),
     final_fs (run_tasks worker ts (final_fs (mapstar worker t fs))),
     events (mapstar worker t fs)
       ++ events (run_tasks worker ts (final_fs (mapstar worker t fs)))).
Proof.
  cbn [run_tasks]. destruct (mapstar worker t fs) as [[r fs1] t1]. cbn.
  by destruct (run_tasks worker ts fs1) as [[rs fs2] t2].
Qed.

Lemma run_tasks_returns worker tasks fs :
  ∃ rs, result (run_tasks worker tasks fs) = Ret rs ∧ length rs = length tasks.
Proof.
  revert fs. induction tasks as [|t ts IH]; intros fs.
  - by exists [].
  - rewrite run_tasks_cons. cbn [result fst].
    destruct (IH (final_fs (mapstar worker t fs))) as (rs & Hrs & Hlen).
    unfold result in *. rewrite Hrs. eexists. split; [done|]. cbn. by rewrite Hlen.
Qed.

(** What every call preserves, a task and a batch preserve, however the
    calls end. *)
Lemma mapstar_invariant (I : FS → Prop) worker us fs :
  (∀ u fs', I fs' → I (final_fs (worker u fs'))) →
  I fs → I (final_fs (mapstar worker us fs)).
Proof.
  intros Hw. revert fs. induction us as [|u us IH]; intros fs HI; [done|].
  rewrite mapstar_cons. specialize (Hw u fs HI).
  destruct (result (worker u fs)); cbn [final_fs fst snd]; [by apply IH|done].
Qed.

Lemma run_tasks_invariant (I : FS → Prop) worker tasks fs :
  (∀ u fs', I fs' → I (final_fs (worker u fs'))) →
  I fs → I (final_fs (run_tasks worker tasks fs)).
Proof.
  intros Hw. revert fs. induction tasks as [|t ts IH]; intros fs HI; [done|].
  rewrite run_tasks_cons. cbn [final_fs fst snd].
  apply IH. by apply mapstar_invariant.
Qed.

Lemma mapstar_events_all (P : event → bool) worker us fs :
  (∀ u fs', forallb P (events (worker u fs')) = true) →
  forallb P (events (mapstar worker us fs)) = true.
Proof.
  intros Hw. revert fs. induction us as [|u us IH]; intros fs; [done|].
  rewrite mapstar_cons. specialize (Hw u fs).
  destruct (result (worker u fs)); cbn [events snd]; [|done].
  by rewrite forallb_app, Hw, IH.
Qed.

Lemma run_tasks_events_all (P : event → bool) worker tasks fs :
  (∀ u fs', forallb P (events (worker u fs')) = true) →
  forallb P (events (run_tasks worker tasks fs)) = true.
Proof.
  intros Hw. revert fs. induction tasks as [|t ts IH]; intros fs; [done|].
  rewrite run_tasks_cons. cbn [events snd].
  by rewrite forallb_app, IH, mapstar_events_all.
Qed.

(** When no call raises, a task is its calls taken one at a time. *)
Lemma mapstar_map_async_wait worker us fs :
  (∀ u fs', u ∈ us → ∃ b, result (worker u fs') = Ret b) →
  ∃ bs, mapstar worker us fs
        = (Ret bs, final_fs (map_async_wait worker us fs),
           events (map_async_wait worker us fs))
        ∧ result (map_async_wait worker us fs) = Ret (Ret <$> bs).
Proof.
  revert fs. induction us as [|u us IH]; intros fs Hw.
  - by exists [].
  - rewrite mapstar_cons, map_async_wait_cons. cbn [result final_fs events fst snd].
    destruct (Hw u fs) as (b & Hb); [by left|].
    destruct (IH (final_fs (worker u fs))) as (bs & Hbs & Hres).
    { intros u' fs' Hin. apply Hw. by right. }
    unfold result in *. rewrite Hb, Hbs, Hres. by exists (b :: bs).
Qed.

Lemma map_async_wait_app worker us1 us2 fs :
  let m1 := map_async_wait worker us1 fs in
  let m2 := map_async_wait worker us2 (final_fs m1) in
  final_fs (map_async_wait worker (us1 ++ us2) fs) = final_fs m2
  ∧ events (map_async_wait worker (us1 ++ us2) fs) = events m1 ++ events m2
  ∧ ∀ r1 r2, result m1 = Ret r1 → result m2 = Ret r2 →
      result (map_async_wait worker (us1 ++ us2) fs) = Ret (r1 ++ r2).
Proof.
  revert fs. induction us1 as [|u us1 IH]; intros fs; cbn zeta.
  - change (map_async_wait worker [] fs) with (Ret (@nil (Res bool)), fs, @nil event).
    cbn. split; [done|]. split; [done|]. by intros r1 r2 [= <-] ->.
  - cbn [app]. rewrite !map_async_wait_cons. cbn [result final_fs events fst snd].
    destruct (IH (final_fs (worker u fs))) as (Hfs & Hev & Hres).
    split; [done|]. split; [by rewrite Hev, List.app_assoc|].
    intros r1 r2 H1 H2.
    destruct (map_async_wait_returns worker us1 (final_fs (worker u fs))) as (r & Hr & _).
    unfold result in *. rewrite Hr in H1. cbn in H1. injection H1 as <-.
    by rewrite (Hres r r2 Hr H2).
Qed.

(** When no call raises, the tasks of a batch are its calls taken one at a
    time. *)
Lemma run_tasks_map_async_wait worker tasks fs :
  (∀ u fs', u ∈ concat tasks → ∃ b, result (worker u fs') = Ret b) →
  ∃ bss : list (list bool),
    result (run_tasks worker tasks fs) = Ret (Ret <$> bss)
    ∧ final_fs (run_tasks worker tasks fs)
      = final_fs (map_async_wait worker (concat tasks) fs)
    ∧ events (run_tasks worker tasks fs)
      = events (map_async_wait worker (concat tasks) fs)
    ∧ result (map_async_wait worker (concat tasks) fs) = Ret (Ret <$> concat bss).
Proof.
  revert fs. induction tasks as [|t ts IH]; intros fs Hw.
  - by exists [].
  - cbn [concat] in *. rewrite run_tasks_cons. cbn [result final_fs events fst snd].
    destruct (mapstar_map_async_wait worker t fs) as (bs & Hbs & Hres).
    { intros u fs' Hin. apply Hw. apply elem_of_app. by left. }
    destruct (map_async_wait_app worker t (concat ts) fs) as (Hfs & Hev & Happ).
    rewrite Hbs. cbn [result final_fs events fst snd].
    destruct (IH (final_fs (map_async_wait worker t fs))) as (bss & H1 & H2 & H3 & H4).
    { intros u fs' Hin. apply Hw. apply elem_of_app. by right. }
    exists (bs :: bss). unfold result in *. rewrite H1. cbn [res_bind fmap list_fmap].
    split; [done|]. split; [by rewrite Hfs, H2|]. split; [by rewrite Hev, H3|].
    rewrite (Happ _ _ Hres H4). cbn [concat]. by rewrite fmap_app.
Qed.

(** A task whose first calls return and whose next call raises ends with
    that call: the trace is the one of these calls, taken one at a time. *)
Lemma mapstar_app_raise worker us1 u us2 fs e :
  (∀ v fs', v ∈ us1 → ∃ b, result (worker v fs') = Ret b) →
  result (worker u (final_fs (map_async_wait worker us1 fs))) = Raise e →
  mapstar worker (us1 ++ u :: us2) fs
  = (Raise e,
     final_fs (worker u (final_fs (map_async_wait worker us1 fs))),
     events (map_async_wait worker us1 fs)
       ++ events (worker u (final_fs (map_async_wait worker us1 fs)))).
Proof.
  revert fs. induction us1 as [|v us1 IH]; intros fs Hw He.
  - change (final_fs (map_async_wait worker [] fs)) with fs in *.
    cbn [app]. by rewrite mapstar_cons, He.
  - cbn [app]. rewrite mapstar_cons. rewrite map_async_wait_cons in *.
    cbn [final_fs events fst snd] in *.
    destruct (Hw v fs) as (b & Hb); [by left|]. rewrite Hb.
    rewrite (IH (final_fs (worker v fs))); [|intros; apply Hw; by right|done].
    cbn [res_bind final_fs events fst snd]. by rewrite List.app_assoc.
Qed.

Lemma get_tasks_concat {A} fuel size (l : list A) :
  (1 ≤ size)%nat → (length l ≤ fuel)%nat → concat (get_tasks fuel size l) = l.
Proof.
  intros Hsize. revert l. induction fuel as [|fuel IH]; intros l Hlen.
  - by destruct l; [|cbn in Hlen; lia].
  - destruct l as [|a l]; cbn [get_tasks]; [by rewrite take_nil|].
    destruct size as [|k]; [lia|]. cbn [take drop concat].
    rewrite IH; [by rewrite <- List.app_comm_cons, take_drop|].
    rewrite length_drop. cbn in Hlen. lia.
Qed.

Lemma chunksize_pos n processes :
  (1 ≤ n)%nat → 1 ≤ processes → (1 ≤ chunksize n processes)%nat.
Proof.
  intros Hn Hp. unfold chunksize.
  pose proof (Z.div_mod (Z.of_nat n) (processes * 4)) as Hdm.
  pose proof (Z.div_pos (Z.of_nat n) (processes * 4)) as Hq.
  destruct (Z.eqb_spec (Z.of_nat n `mod` (processes * 4)) 0) as [He|He]; nia.
Qed.

Lemma map_async_tasks processes (urls : list string) :
  1 ≤ processes →
  concat (get_tasks (length urls) (chunksize (length urls) processes) urls) = urls.
Proof.
  intros Hp. destruct urls as [|u urls]; [done|].
  apply get_tasks_concat; [|done]. apply chunksize_pos; [cbn; lia|done].
Qed.

(** A batch in which no call raises is its calls taken one at a time. *)
Lemma map_async_map_async_wait processes worker urls fs :
  1 ≤ processes →
  (∀ u fs', u ∈ urls → ∃ b, result (worker u fs') = Ret b) →
  ∃ bss : list (list bool),
    result (map_async processes worker urls fs) = Ret (Ret <$> bss)
    ∧ final_fs (map_async processes worker urls fs)
      = final_fs (map_async_wait worker urls fs)
    ∧ events (map_async processes worker urls fs)
      = events (map_async_wait worker urls fs)
    ∧ result (map_async_wait worker urls fs) = Ret (Ret <$> concat bss).
Proof.
  intros Hp Hw. unfold map_async.
  pose proof (map_async_tasks processes urls Hp) as Hc.
  destruct (run_tasks_map_async_wait worker
              (get_tasks (length urls) (chunksize (length urls) processes) urls) fs)
    as (bss & H1 & H2 & H3 & H4).
  { by rewrite Hc. }
  rewrite Hc in *. by exists bss.
Qed.

(** ** The batch: [download_images] *)

Lemma create_dest_dir_cases env dest fs :
  (os_path_exists fs dest = true
     ∧ create_dest_dir env dest fs = (Ret true, fs, [PathExists dest]))
  ∨ (os_path_exists fs dest = false
     ∧ ∃ fs', makedirs env fs dest = (true, fs')
       ∧ create_dest_dir env dest fs
         = (Ret true, fs',
            [PathExists dest; MakeDirs dest;
             Log INFO ("Created destination directory: " +:+ dest)]))
  ∨ (os_path_exists fs dest = false
     ∧ ∃ fs', makedirs env fs dest = (false, fs')
       ∧ create_dest_dir env dest fs
         = (Ret false, fs',
            [PathExists dest; MakeDirs dest;
             Log CRITICAL "Could not create download directory nor does it exist"])).
Proof.
  unfold create_dest_dir, bind, path_exists, ret.
  destruct (os_path_exists fs dest); cbn [negb]; [by left|].
  destruct (makedirs env fs dest) as [[|] fs']; [right; left|right; right]; eauto.
Qed.

Lemma download_images_failed_dir env file dest replace timeout procs fs :
  result (create_dest_dir env dest fs) = Ret false →
  download_images env file dest replace timeout procs fs
  = (Ret false, final_fs (create_dest_dir env dest fs),
     events (create_dest_dir env dest fs)).
Proof.
  unfold download_images, bind at 1.
  destruct (create_dest_dir_cases env dest fs)
    as [[_ ->]|[(_ & fs' & _ & ->)|(_ & fs' & _ & ->)]]; cbn; done.
Qed.

Lemma download_images_run env file dest replace timeout procs fs lines :
  result (create_dest_dir env dest fs) = Ret true →
  read_file env (final_fs (create_dest_dir env dest fs)) file = Some lines →
  1 ≤ procs →
  let pool := map_async procs
                (λ url, download_single_image env url dest replace timeout)
                (strip <$> lines) (final_fs (create_dest_dir env dest fs)) in
  download_images env file dest replace timeout procs fs
  = (Ret true, final_fs pool,
     events (create_dest_dir env dest fs) ++ OpenRead file :: events pool).
Proof.
  intros Hc Hr Hp pool. subst pool.
  unfold download_images, bind at 1.
  destruct (create_dest_dir env dest fs) as [[c fs1] t1]. cbn in Hc, Hr |- *. subst c.
  cbn [negb]. unfold bind at 1, read_lines_from_file. rewrite Hr.
  unfold bind at 1, Pool.
  replace (procs <? 1) with false by (symmetry; apply Z.ltb_ge; lia).
  unfold ret at 1. unfold bind, map_async.
  destruct (run_tasks_returns
              (λ url, download_single_image env url dest replace timeout)
              (get_tasks (length (strip <$> lines))
                 (chunksize (length (strip <$> lines)) procs) (strip <$> lines)) fs1)
    as (rs & Hrs & _).
  destruct (run_tasks _ _ fs1) as [[rs' fs2] t2]. cbn in Hrs. subst rs'.
  cbn. by rewrite List.app_nil_r.
Qed.

Lemma create_dest_dir_events env dest fs :
  ∃ b tail, result (create_dest_dir env dest fs) = Ret b
    ∧ events (create_dest_dir env dest fs) = PathExists dest :: tail
    ∧ (length (filter (λ e, is_makedirs e = true) (events (create_dest_dir env dest fs))) ≤ 1)%nat
    ∧ forallb (λ e, negb (is_http_get e || is_open_read e || is_open_write e))
        (events (create_dest_dir env dest fs)) = true
    ∧ omap url_verdict (events (create_dest_dir env dest fs)) = [].
Proof.
  destruct (create_dest_dir_cases env dest fs)
    as [[_ ->]|[(_ & fs' & _ & ->)|(_ & fs' & _ & ->)]]; cbn; eauto 10.
Qed.

(** The file system a batch ends with is reached from the one
    [create_dest_dir] leaves by the tasks of some batch of URLs (none, when
    the batch stops before the pool). *)
Lemma download_images_final_fs env file dest replace timeout procs fs :
  ∃ tasks,
    final_fs (download_images env file dest replace timeout procs fs)
    = final_fs (run_tasks (λ url, download_single_image env url dest replace timeout)
                  tasks (final_fs (create_dest_dir env dest fs))).
Proof.
  unfold download_images, bind at 1.
  destruct (create_dest_dir env dest fs) as [[[[|]|e] fs1] t1]; cbn [negb final_fs fst snd].
  - unfold bind at 1, read_lines_from_file.
    destruct (read_file env fs1 file) as [lines|].
    + unfold bind at 1, Pool. destruct (procs <? 1); [by exists []|].
      unfold ret at 1, bind, map_async.
      exists (get_tasks (length (strip <$> lines))
                (chunksize (length (strip <$> lines)) procs) (strip <$> lines)).
      destruct (run_tasks _ _ fs1) as [[[rs|e] fs2] t2]; cbn; done.
    + by exists [].
  - by exists [].
  - by exists [].
Qed.

Lemma download_images_events env file dest replace timeout procs fs :
  ∃ rest,
    events (download_images env file dest replace timeout procs fs)
    = events (create_dest_dir env dest fs) ++ rest
    ∧ forallb (λ e, negb (is_makedirs e)) rest = true.
Proof.
  unfold download_images, bind at 1.
  destruct (create_dest_dir env dest fs) as [[[[|]|e] fs1] t1]; cbn [negb events snd].
  - unfold bind at 1, read_lines_from_file.
    destruct (read_file env fs1 file) as [lines|].
    + unfold bind at 1, Pool. destruct (procs <? 1).
      * exists [OpenRead file]. done.
      * unfold ret at 1, bind, map_async.
        pose proof (run_tasks_events_all (λ e, negb (is_makedirs e))
                      (λ url, download_single_image env url dest replace timeout)
                      (get_tasks (length (strip <$> lines))
                         (chunksize (length (strip <$> lines)) procs) (strip <$> lines))
                      fs1) as Hno.
        specialize (Hno (λ u fs', download_single_image_no_makedirs env u dest replace
                                    timeout fs')).
        destruct (run_tasks _ _ fs1) as [[[rs|e] fs2] t2]; cbn in Hno |- *.
        -- exists (OpenRead file :: t2 ++ []). by rewrite List.app_nil_r.
        -- exists (OpenRead file :: t2). done.
    + by exists [OpenRead file; Log CRITICAL ("Could not read file: " +:+ file)].
  - exists []. cbn. by rewrite List.app_nil_r.
  - exists []. by rewrite List.app_nil_r.
Qed.




(** C6.  [download_images] ensures the destination directory first and
    once: its trace starts with the trace of [create_dest_dir] and asks for
    no directory afterwards.  If the directory cannot be created the batch
    returns false at once: nothing is read, fetched or written after
    [create_dest_dir].  Once the directory is there (the URL file read, the
    pool started) the batch is the run of the pool's tasks, the URLs cut
    into chunks, and returns true whatever the tasks do.  Every task is
    run, whatever the task before it did, and inside a task a call that
    returns is followed by the next call.  But a call that raises ends its
    task: the URLs that follow it in its chunk are never processed.  Such
    calls exist: a valid URL answered with status 200 and no content-type
    header raises [TypeError]; the task it is in then ends with
    [TypeError], and its trace holds a URL verdict for the URLs before it
    and for itself, and none for the URLs after it.  So an item that fails
    by returning false leaves its siblings alone (it also leaves the file
    system as it found it), while an item that fails by raising takes the
    rest of its chunk with it. *)
Theorem raising_item_drops_chunk_mates env file dest replace timeout procs fs :
  let c := create_dest_dir env dest fs in
  let o := download_images env file dest replace timeout procs fs in
  let worker := λ url, download_single_image env url dest replace timeout in
  (∃ tail rest,
      events c = PathExists dest :: tail
      ∧ (length (filter (λ e, is_makedirs e = true) (events c)) ≤ 1)%nat
      ∧ events o = events c ++ rest
      ∧ forallb (λ e, negb (is_makedirs e)) rest = true)
  ∧ (result c = Ret false →
       o = (Ret false, final_fs c, events c)
       ∧ forallb (λ e, negb (is_http_get e || is_open_read e || is_open_write e))
           (events o) = true)
  ∧ (result c = Ret true →
     ∀ lines, read_file env (final_fs c) file = Some lines → 1 ≤ procs →
       let urls := strip <$> lines in
       let tasks := get_tasks (length urls) (chunksize (length urls) procs) urls in
       let pool := run_tasks worker tasks (final_fs c) in
       concat tasks = urls
       ∧ o = (Ret true, final_fs pool, events c ++ OpenRead file :: events pool))
  ∧ (∀ t ts fs',
       let m := mapstar worker t fs' in
       events (run_tasks worker (t :: ts) fs')
       = events m ++ events (run_tasks worker ts (final_fs m))
       ∧ final_fs (run_tasks worker (t :: ts) fs')
         = final_fs (run_tasks worker ts (final_fs m)))
  ∧ (∀ u us fs' b,
       result (worker u fs') = Ret b →
       let m := mapstar worker us (final_fs (worker u fs')) in
       events (mapstar worker (u :: us) fs') = events (worker u fs') ++ events m
       ∧ final_fs (mapstar worker (u :: us) fs') = final_fs m)
  ∧ (∀ u us fs' e,
       result (worker u fs') = Raise e →
       mapstar worker (u :: us) fs'
       = (Raise e, final_fs (worker u fs'), events (worker u fs')))
  ∧ (∀ u fs' r,
       validators_url env u = true →
       requests_get env u timeout = Responded r →
       status_code r = 200 → content_type r = None →
       result (worker u fs') = Raise TypeError)
  ∧ (∀ us1 u us2 fs' r,
       forallb (answers_with_content_type env timeout) us1 = true →
       validators_url env u = true →
       requests_get env u timeout = Responded r →
       status_code r = 200 → content_type r = None →
       let m := mapstar worker (us1 ++ u :: us2) fs' in
       result m = Raise TypeError
       ∧ final_fs m = final_fs (map_async_wait worker us1 fs')
       ∧ omap url_verdict (events m)
         = (λ v, (v, validators_url env v)) <$> (us1 ++ [u]))
  ∧ (∀ url fs',
       result (worker url fs') ≠ Ret true → final_fs (worker url fs') = fs').
Proof.
  intros c o worker. subst c o worker.
  destruct (create_dest_dir_events env dest fs) as (c & tail & Hc' & Hev & Hone & Hquiet & _).
  assert (∀ u fs' r,
            validators_url env u = true →
            requests_get env u timeout = Responded r →
            status_code r = 200 → content_type r = None →
            download_single_image env u dest replace timeout fs'
            = (Raise TypeError, fs',
               [Log DEBUG ("URL is valid: " +:+ u); HttpGet u timeout;
                Log DEBUG ("HTTP 200 received on URL: " +:+ u)])) as Hraise.
  { intros u fs' r Hv Hn Hs Hct.
    pose proof (response_ok_200 r Hs) as Hok.
    unfold_pipeline. step Hv. step Hn. step Hok. step Hs. step Hct. reflexivity. }
  split; [|split; [|split; [|split; [|split; [|split; [|split; [|split]]]]]]].
  - destruct (download_images_events env file dest replace timeout procs fs)
      as (rest & Hrest & Hno).
    exists tail, rest. done.
  - intros Hc. rewrite (download_images_failed_dir _ _ _ _ _ _ _ Hc). done.
  - intros Hc lines Hr Hp urls tasks pool. subst urls tasks pool.
    split; [by apply map_async_tasks|].
    by rewrite (download_images_run env file dest replace timeout procs fs lines Hc Hr Hp).
  - intros t ts fs' m. subst m. by rewrite run_tasks_cons.
  - intros u us fs' b Hb' m. subst m. rewrite mapstar_cons, Hb'. done.
  - intros u us fs' e He. by rewrite mapstar_cons, He.
  - intros u fs' r Hv Hn Hs Hct. by rewrite (Hraise u fs' r).
  - intros us1 u us2 fs' r Hh Hv Hn Hs Hct m. subst m.
    rewrite (mapstar_app_raise _ us1 u us2 fs' TypeError);
      [|by apply workers_return|by rewrite (Hraise u _ r)].
    rewrite (Hraise u _ r) by done. cbn [result final_fs events fst snd].
    split; [done|]. split; [done|].
    rewrite omap_app, map_async_wait_verdicts, fmap_app. cbn. by rewrite Hv.
  - intros url fs'. apply download_single_image_frame.
Qed.

Lemma raising_item_drops_chunk_mates_witness :
  let batch := λ procs, download_images test_env "chunk.txt" default_dest_dir false
                          default_timeout procs chunk_fs in
  result (download_single_image test_env "http://media.test.com/bare.jpg"
            default_dest_dir false default_timeout chunk_fs) = Raise TypeError
  ∧ result (batch 1) = Ret true
  ∧ omap url_verdict (events (batch 1))
    = [("http://media.test.com/bare.jpg", true);
       ("http://media.test.com/index.php", true);
       ("http://media.test.com/somewhere/index.jpg", true);
       ("isjdfsdfpwej42423n4k235", false)]
  ∧ final_fs (batch 1) !! "image_downloads/image.jpg" = None
  ∧ final_fs (batch default_processes) !! "image_downloads/image.jpg" = Some (File "ABC").
Proof.
  intros batch. subst batch. cbn beta.
  destruct (raising_item_drops_chunk_mates test_env "chunk.txt" default_dest_dir false
              default_timeout 1 chunk_fs) as (_ & _ & Hone & _ & _ & _ & Hraise & _).
  split.
  { apply (Hraise "http://media.test.com/bare.jpg" chunk_fs (mkResponse 200 None "ABC"));
      reflexivity. }
  destruct (Hone eq_refl (readlines chunk_txt) eq_refl) as [_ ->]; [lia|].
  destruct (raising_item_drops_chunk_mates test_env "chunk.txt" default_dest_dir false
              default_timeout default_processes chunk_fs) as (_ & _ & Hten & _).
  destruct (Hten eq_refl (readlines chunk_txt) eq_refl) as [_ ->];
    [unfold default_processes; lia|].
  repeat split; vm_compute; reflexivity.
Defined.

(** ** The unit tests of the repository, on the model *)

Section UnitTests.

Example test_get_filename_from_url :
  get_filename_from_url "http://media.test.com/image.jpg?v=2&c=4" = Ret "image.jpg".
Proof. reflexivity. Qed.

Example test_http_ok :
  result (is_valid_response image_response "mock://test.com/index.jpg" ∅) = Ret true.
Proof. reflexivity. Qed.

Example test_http_not_found :
  result (is_valid_response (mkResponse 404 None "")
            "mock://test.com/somewhere/index.jpg" ∅) = Ret false.
Proof. reflexivity. Qed.

Example test_none_image_content :
  result (is_valid_content (mkResponse 200 (Some "text/html") "")
            "mock://test.com/index.php" ∅) = Ret false.
Proof. reflexivity. Qed.

Example test_image_content :
  result (is_valid_content image_response "mock://test.com/index.jpg" ∅) = Ret true.
Proof. reflexivity. Qed.

Example test_random_string :
  result (is_valid_url test_env "isjdfsdfpwej42423n4k235" ∅) = Ret false.
Proof. reflexivity. Qed.

Example test_bad_protocol :
  result (is_valid_url test_env "nonono://somehost.com/image.jpg" ∅) = Ret false.
Proof. reflexivity. Qed.

Example test_write_content_of_request_to_file :
  let o := save_image test_env image_response "test.jpg" ∅ in
  result o = Ret true ∧ final_fs o !! "test.jpg" = Some (File "I am an image").
Proof. split; reflexivity. Qed.

Example test_write_to_nonexistent_dir :
  result (save_image test_env image_response "jiofdgndfgng/test.jpg" ∅) = Ret false.
Proof. reflexivity. Qed.

Example test_invalid_file :
  result (read_lines_from_file test_env "fjsiodfjosdods.txt" ∅) = Ret None.
Proof. reflexivity. Qed.

End UnitTests.

(** ** The library calls, on examples *)

Section LibraryExamples.

Example strip_beyond_ascii :
  strip (no_break_space +:+ " http://media.test.com/image.jpg" +:+ ideographic_space
         +:+ no_break_space +:+ nl)
  = "http://media.test.com/image.jpg".
Proof. vm_compute. reflexivity. Qed.

Example strip_keeps_inner_space :
  strip (" a" +:+ no_break_space +:+ "b c" +:+ no_break_space)
  = "a" +:+ no_break_space +:+ "b c".
Proof. vm_compute. reflexivity. Qed.

Example request_for_line_in_no_break_spaces :
  List.filter is_http_get
    (events (download_images test_env "spaced.txt" default_dest_dir false
               default_timeout default_processes spaced_fs))
  = [HttpGet "http://media.test.com/image.jpg?v=2&c=4" default_timeout].
Proof. vm_compute. reflexivity. Qed.

(** [os.makedirs] keeps the ancestors it made when a later [mkdir] is
    refused. *)
Example create_dest_dir_leaves_ancestors :
  let env := mkEnv url_grammar test_get (String.eqb "out/a") in
  let o := create_dest_dir env "out/a" test_fs in
  result o = Ret false
  ∧ final_fs o !! "out" = Some Dir
  ∧ final_fs o !! "out/a" = None
  ∧ test_fs !! "out" = None.
Proof. repeat split; vm_compute; reflexivity. Qed.

Example chunksize_values :
  chunksize 0 10 = 0%nat ∧ chunksize 5 10 = 1%nat ∧ chunksize 40 10 = 1%nat
  ∧ chunksize 41 10 = 2%nat ∧ chunksize 5 1 = 2%nat.
Proof. repeat split; reflexivity. Qed.

Example get_tasks_chunks :
  get_tasks 5 2 ["a"; "b"; "c"; "d"; "e"] = [["a"; "b"]; ["c"; "d"]; ["e"]].
Proof. reflexivity. Qed.

End LibraryExamples.

(** * Further properties *)

(** ** [logging_level_from_verbosity] *)

Lemma logging_levels_other (v : Z) :
  v ≠ 1 → v ≠ 2 → v ≠ 3 → v ≠ 4 → logging_levels !! Some v = None.
Proof.
  intros H1 H2 H3 H4. unfold logging_levels.
  rewrite !lookup_insert_ne by congruence.
  apply lookup_singleton_ne. congruence.
Qed.

(** X1.  Every further [-v] makes the logger more talkative, never less:
    for a count of at least one the level is [50 - 10 * count], and from
    four flags on it stays at [DEBUG]; so the level never rises with the
    count. *)
Theorem verbosity_lowers_level (v w : Z) :
  1 ≤ v → v ≤ w →
  level_value (logging_level_from_verbosity (Some v)) = Z.max 10 (50 - 10 * v)
  ∧ level_value (logging_level_from_verbosity (Some w))
    ≤ level_value (logging_level_from_verbosity (Some v)).
Proof.
  intros Hv Hw.
  assert (∀ n, 1 ≤ n →
            level_value (logging_level_from_verbosity (Some n)) = Z.max 10 (50 - 10 * n))
    as Hclosed.
  { intros n Hn. unfold logging_level_from_verbosity.
    destruct (decide (n = 1)) as [->|]; [reflexivity|].
    destruct (decide (n = 2)) as [->|]; [reflexivity|].
    destruct (decide (n = 3)) as [->|]; [reflexivity|].
    destruct (decide (n = 4)) as [->|]; [reflexivity|].
    rewrite logging_levels_other by done. cbn [level_value]. lia. }
  rewrite !Hclosed by lia. split; [done|lia].
Qed.

Lemma verbosity_lowers_level_witness :
  level_value (logging_level_from_verbosity (Some 2)) = Z.max 10 (50 - 10 * 2)
  ∧ level_value (logging_level_from_verbosity (Some 105))
    ≤ level_value (logging_level_from_verbosity (Some 2)).
Proof. apply (verbosity_lowers_level 2 105); lia. Defined.

(** X2.  Only the absent count gives [CRITICAL].  A count that is not a
    key of the dictionary, zero and negative numbers included, falls
    through to [DEBUG]. *)
Theorem verbosity_default_and_fallback :
  (∀ verbosity, logging_level_from_verbosity verbosity = CRITICAL ↔ verbosity = None)
  ∧ (∀ v, v ≤ 0 ∨ 4 ≤ v → logging_level_from_verbosity (Some v) = DEBUG).
Proof.
  assert (∀ v, v ≤ 0 ∨ 4 ≤ v → logging_level_from_verbosity (Some v) = DEBUG) as Hfall.
  { intros v Hv. unfold logging_level_from_verbosity.
    destruct (decide (v = 4)) as [->|]; [reflexivity|].
    rewrite logging_levels_other by lia. done. }
  split; [|exact Hfall].
  intros [v|]; [|done]. split; [|done]. intros H. exfalso.
  destruct (decide (v = 1)) as [->|]; [done|].
  destruct (decide (v = 2)) as [->|]; [done|].
  destruct (decide (v = 3)) as [->|]; [done|].
  rewrite Hfall in H by lia. done.
Qed.

Lemma verbosity_default_and_fallback_witness :
  logging_level_from_verbosity (Some 0) = DEBUG
  ∧ logging_level_from_verbosity (Some 18) = DEBUG.
Proof.
  split; apply (proj2 verbosity_default_and_fallback); lia.
Defined.

(** ** More on [get_filename_from_url] *)

Lemma split_app_sep sep a b :
  split sep (a +:+ String sep b) = split sep a ++ split sep b.
Proof.
  induction a as [|c a IH].
  - change ("" +:+ String sep b) with (String sep b). cbn [split app].
    by rewrite Ascii.eqb_refl.
  - rewrite str_app_cons. cbn [split]. rewrite IH.
    destruct (Ascii.eqb c sep); [done|].
    pose proof (split_nonempty sep a). by destruct (split sep a).
Qed.

Lemma split_no_sep sep s : has_char sep s = false → split sep s = [s].
Proof.
  induction s as [|c s IH]; [done|]. cbn [has_char split].
  intros [Hc Hs]%orb_false_iff. rewrite Hc, (IH Hs). done.
Qed.

Lemma last_app_nonempty {A} (l k : list A) (d : A) :
  k ≠ [] → List.last (l ++ k) d = List.last k d.
Proof.
  intros Hk. destruct (exists_last Hk) as (k' & x & ->).
  by rewrite app_assoc, !List.last_last.
Qed.

Lemma get_filename_from_url_after_slash pre s :
  get_filename_from_url (pre +:+ "/" +:+ s) = get_filename_from_url s.
Proof.
  unfold get_filename_from_url.
  rewrite !(py_getitem_last _ "") by apply split_nonempty.
  change (pre +:+ "/" +:+ s) with (pre +:+ String "/" s).
  rewrite split_app_sep, last_app_nonempty by apply split_nonempty. done.
Qed.

Lemma get_filename_from_url_clean_name name :
  has_char "/" name = false → has_char "?" name = false →
  get_filename_from_url name = Ret name.
Proof.
  intros Hs Hq. unfold get_filename_from_url.
  rewrite (split_no_sep "/" name Hs).
  rewrite (py_getitem_last _ "") by done. cbn [List.last res_bind].
  rewrite (split_no_sep "?" name Hq), py_getitem_first. done.
Qed.

Lemma get_filename_from_url_query name q :
  has_char "/" name = false → has_char "?" name = false → has_char "/" q = false →
  get_filename_from_url (name +:+ "?" +:+ q) = Ret name.
Proof.
  intros Hs Hq Hqs. unfold get_filename_from_url.
  rewrite split_no_sep.
  2:{ rewrite has_char_app. rewrite Hs. cbn. done. }
  rewrite (py_getitem_last _ "") by done. cbn [List.last res_bind].
  change (name +:+ "?" +:+ q) with (name +:+ String "?" q).
  rewrite split_app_sep, (split_no_sep "?" name Hq). cbn [app].
  by rewrite py_getitem_first.
Qed.

(** X3.  Only the text after the last ['/'] of the URL counts, wherever
    that ['/'] stands: whatever precedes a ['/'] can be dropped without
    changing the name, also when the ['/'] is inside the query string. *)
Theorem get_filename_from_url_ignores_prefix pre s :
  get_filename_from_url (pre +:+ "/" +:+ s) = get_filename_from_url s.
Proof. apply get_filename_from_url_after_slash. Qed.

(** X4.  URLs that agree on their last path segment get the same name:
    for a name without ['/'] and ['?'], neither the host and directories in
    front of it nor a query string behind it (one without ['/']) change
    the result. *)
Theorem get_filename_from_url_collides pre pre' name q q' :
  has_char "/" name = false → has_char "?" name = false →
  has_char "/" q = false → has_char "/" q' = false →
  get_filename_from_url (pre +:+ "/" +:+ name +:+ "?" +:+ q) = Ret name
  ∧ get_filename_from_url (pre' +:+ "/" +:+ name +:+ "?" +:+ q') = Ret name
  ∧ get_filename_from_url (pre +:+ "/" +:+ name) = Ret name.
Proof.
  intros Hs Hq Hqs Hqs'.
  rewrite !get_filename_from_url_after_slash.
  rewrite !get_filename_from_url_query by done.
  by rewrite get_filename_from_url_clean_name.
Qed.

Lemma get_filename_from_url_collides_witness :
  get_filename_from_url ("http://media.test.com" +:+ "/" +:+ "image.jpg" +:+ "?" +:+ "v=2&c=4")
    = Ret "image.jpg"
  ∧ get_filename_from_url ("https://other.org/a/b" +:+ "/" +:+ "image.jpg" +:+ "?" +:+ "")
    = Ret "image.jpg"
  ∧ get_filename_from_url ("http://media.test.com" +:+ "/" +:+ "image.jpg")
    = Ret "image.jpg".
Proof.
  apply (get_filename_from_url_collides "http://media.test.com" "https://other.org/a/b"
           "image.jpg" "v=2&c=4" ""); reflexivity.
Defined.

(** X5.  Deriving a name is idempotent: the name derived from a URL is
    its own derived name. *)
Theorem get_filename_from_url_idempotent url name :
  get_filename_from_url url = Ret name → get_filename_from_url name = Ret name.
Proof.
  intros H.
  destruct (get_filename_from_url_decompose url)
    as (pre & name' & query & Hret & _ & _ & Hslash & Hq & _).
  rewrite H in Hret. injection Hret as <-.
  rewrite has_char_app in Hslash. apply orb_false_iff in Hslash as [Hslash _].
  by apply get_filename_from_url_clean_name.
Qed.

Lemma get_filename_from_url_idempotent_witness :
  get_filename_from_url "image.jpg" = Ret "image.jpg".
Proof.
  apply (get_filename_from_url_idempotent "http://media.test.com/image.jpg?v=2&c=4").
  reflexivity.
Defined.

(** X6.  The derived name is empty exactly when nothing stands between
    the last ['/'] and the first ['?'] after it: the URL is empty, ends in
    ['/'], or its last segment starts with ['?']. *)
Theorem get_filename_from_url_empty url :
  get_filename_from_url url = Ret ""
  ↔ ∃ pre query,
      url = pre +:+ query
      ∧ (pre = "" ∨ ∃ p, pre = p +:+ "/")
      ∧ has_char "/" query = false
      ∧ (query = "" ∨ ∃ q, query = String "?" q).
Proof.
  split.
  - intros H.
    destruct (get_filename_from_url_decompose url)
      as (pre & name & query & Hret & Hurl & Hpre & Hslash & _ & Hquery).
    rewrite H in Hret. injection Hret as <-.
    exists pre, query. done.
  - intros (pre & query & -> & Hpre & Hslash & Hquery).
    assert (get_filename_from_url query = Ret "") as Hq.
    { destruct Hquery as [->|(q & ->)]; [reflexivity|].
      cbn [has_char] in Hslash. apply orb_false_iff in Hslash as [_ Hslash].
      apply (get_filename_from_url_query "" q); done. }
    destruct Hpre as [->|(p & ->)]; [done|].
    rewrite str_app_assoc. by rewrite get_filename_from_url_after_slash.
Qed.

(** ** [is_valid_content] *)

Lemma startswith_prefix p s : startswith p s = true ↔ ∃ r, s = p +:+ r.
Proof.
  revert s. induction p as [|a p IH]; intros s.
  - split; [by exists s|done].
  - destruct s as [|b s]; cbn [startswith].
    + split; [done|]. intros (r & Hr). rewrite str_app_cons in Hr. done.
    + rewrite andb_true_iff, Ascii.eqb_eq, IH. split.
      * intros (-> & r & ->). by exists r.
      * intros (r & Hr). rewrite str_app_cons in Hr. injection Hr as -> ->. eauto.
Qed.

Lemma str_contains_substring needle hay :
  str_contains needle hay = true ↔ ∃ a b, hay = a +:+ needle +:+ b.
Proof.
  induction hay as [|c hay IH]; cbn [str_contains]; rewrite orb_true_iff, startswith_prefix.
  - split.
    + intros [(r & Hr)|?]; [|done]. by exists "", r.
    + intros (a & b & H). left. destruct a as [|x a]; [by exists b|].
      rewrite str_app_cons in H. done.
  - rewrite IH. split.
    + intros [(r & Hr)|(a & b & ->)]; [by exists "", r|by exists (String c a), b].
    + intros (a & b & H). destruct a as [|x a]; [left; by exists b|].
      rewrite str_app_cons in H. injection H as -> ->. right. eauto.
Qed.

(** X7.  [is_valid_content] accepts a response exactly when its
    content-type header is present and contains the lower-case text
    "image" somewhere; it rejects every other header value with the value
    false, and it raises exactly when the header is absent.  It never
    changes the file system. *)
Theorem is_valid_content_substring response url fs :
  (result (is_valid_content response url fs) = Ret true
   ↔ ∃ a b, content_type response = Some (a +:+ "image" +:+ b))
  ∧ (result (is_valid_content response url fs) = Raise TypeError
     ↔ content_type response = None)
  ∧ final_fs (is_valid_content response url fs) = fs.
Proof.
  unfold is_valid_content, bind, lift, not_in, logger, emit, ret, result, final_fs.
  destruct (content_type response) as [ct|]; cbn.
  - destruct (str_contains "image" ct) eqn:Hc; cbn.
    + apply str_contains_substring in Hc as (a & b & ->).
      split; [|done]. split; [eauto|done].
    + split; [|done]. split; [done|]. intros (a & b & [= ->]).
      assert (str_contains "image" (a +:+ "image" +:+ b) = true) as Ht
        by (apply str_contains_substring; eauto).
      congruence.
  - split; [|done]. split; [done|]. by intros (a & b & ?).
Qed.

(** ** Requests and writes of one item and of a batch *)

Lemma download_single_image_requests env url dest replace timeout fs :
  List.filter is_http_get (events (download_single_image env url dest replace timeout fs))
  = if validators_url env url then [HttpGet url timeout] else [].
Proof.
  destruct (get_filename_from_url_returns url) as (name & Hname).
  case_pipeline; reflexivity.
Qed.

Lemma map_async_wait_requests env dest replace timeout urls fs :
  List.filter is_http_get
    (events (map_async_wait
               (λ url, download_single_image env url dest replace timeout) urls fs))
  = (λ u, HttpGet u timeout) <$> List.filter (validators_url env) urls.
Proof.
  revert fs. induction urls as [|u us IH]; intros fs; [done|].
  rewrite map_async_wait_cons. cbn [events snd].
  rewrite List.filter_app, IH, download_single_image_requests.
  cbn [List.filter]. by destruct (validators_url env u).
Qed.

Lemma filter_none {A} (f : A → bool) (l : list A) :
  forallb (λ x, negb (f x)) l = true → List.filter f l = [].
Proof.
  induction l as [|x l IH]; [done|]. cbn.
  intros [Hx Hl]%andb_true_iff. apply negb_true_iff in Hx. rewrite Hx. auto.
Qed.

(** X8.  A batch sends exactly one GET for every line that holds a valid
    URL, in the order of the lines, to the URL as trimmed and with the
    given timeout, and none for any other line: nothing is retried and
    nothing invalid is requested.  (Directory available, URL file readable,
    at least one process, no call raising.) *)
Theorem download_images_one_request_per_valid_url
    env file dest replace timeout procs fs lines :
  result (create_dest_dir env dest fs) = Ret true →
  read_file env (final_fs (create_dest_dir env dest fs)) file = Some lines →
  1 ≤ procs →
  forallb (answers_with_content_type env timeout) (strip <$> lines) = true →
  List.filter is_http_get
    (events (download_images env file dest replace timeout procs fs))
  = (λ u, HttpGet u timeout) <$> List.filter (validators_url env) (strip <$> lines).
Proof.
  intros Hc Hr Hp Hh.
  rewrite (download_images_run env file dest replace timeout procs fs lines Hc Hr Hp).
  cbn [events snd].
  destruct (map_async_map_async_wait procs
              (λ url, download_single_image env url dest replace timeout)
              (strip <$> lines) (final_fs (create_dest_dir env dest fs)) Hp)
    as (_ & _ & _ & Hpool & _); [by apply workers_return|].
  rewrite Hpool.
  destruct (create_dest_dir_events env dest fs) as (_ & _ & _ & _ & _ & Hquiet & _).
  rewrite List.filter_app. cbn [List.filter is_http_get].
  rewrite map_async_wait_requests.
  rewrite (filter_none is_http_get); [done|].
  apply forallb_forall. intros e He.
  rewrite forallb_forall in Hquiet. specialize (Hquiet e He).
  by destruct (is_http_get e).
Qed.

Lemma download_images_one_request_per_valid_url_witness :
  List.filter is_http_get
    (events (download_images test_env "urls.txt" default_dest_dir false default_timeout
               default_processes test_fs))
  = [HttpGet "http://media.test.com/somewhere/index.jpg" default_timeout;
     HttpGet "http://media.test.com/image.jpg?v=2&c=4" default_timeout].
Proof.
  rewrite (download_images_one_request_per_valid_url test_env "urls.txt"
             default_dest_dir false default_timeout default_processes test_fs
             (readlines urls_txt));
    [reflexivity|reflexivity|reflexivity|unfold default_processes; lia|reflexivity].
Defined.

Lemma write_file_insert env (fs fs' : FS) p d :
  write_file env fs p d = Some fs' → fs' = <[p := File d]> fs.
Proof.
  unfold write_file. intros H.
  repeat (case_match; simplify_eq); done.
Qed.

Lemma write_file_lookup env (fs fs' : FS) p d :
  write_file env fs p d = Some fs' → lookup_path fs' p = Some (File d).
Proof.
  intros H. pose proof (write_file_insert _ _ _ _ _ H) as ->.
  unfold write_file in H.
  destruct (os_denied env p); [done|].
  destruct (lookup_path fs p) as [[old|]|] eqn:Hl; [|done|].
  - rewrite (lookup_path_file fs p old Hl). apply lookup_insert_eq.
  - destruct (String.eqb p "") eqn:E1; [done|].
    destruct (ends_with_slash p) eqn:E2; [done|].
    unfold lookup_path. rewrite E1, E2. apply lookup_insert_eq.
Qed.

(** The one path that an item may write. *)
Lemma download_single_image_writes env url dest replace timeout fs :
  ∃ name,
    get_filename_from_url url = Ret name
    ∧ has_char "/" name = false
    ∧ (∀ q, q ≠ os_path_join dest name →
            final_fs (download_single_image env url dest replace timeout fs) !! q
            = fs !! q)
    ∧ (∀ q, is_Some (fs !! q) →
            is_Some (final_fs (download_single_image env url dest replace timeout fs)
                     !! q))
    ∧ (∀ p, In (OpenWrite p)
              (events (download_single_image env url dest replace timeout fs)) →
            p = os_path_join dest name).
Proof.
  destruct (get_filename_from_url_decompose url)
    as (pre & name & query & Hname & _ & _ & Hslash & _).
  rewrite has_char_app in Hslash. apply orb_false_iff in Hslash as [Hslash _].
  exists name. split; [done|]. split; [done|].
  case_pipeline;
    repeat match goal with
           | H : write_file _ _ _ _ = Some _ |- _ =>
               apply write_file_insert in H; subst
           end;
    (split; [|split]);
    try (intros q Hq; by rewrite ?lookup_insert_ne);
    try (intros q Hq; rewrite ?lookup_insert; try case_decide; by eauto);
    try (intros p Hin; cbn in Hin; intuition congruence).
Qed.

(** X9.  An item opens for writing at most one path, the derived name
    (which has no ['/']) joined to the destination directory; it changes no
    other entry of the file system and removes none. *)
Theorem download_single_image_touches_one_path env url dest replace timeout fs :
  ∃ name,
    get_filename_from_url url = Ret name
    ∧ has_char "/" name = false
    ∧ (∀ q, q ≠ os_path_join dest name →
            final_fs (download_single_image env url dest replace timeout fs) !! q
            = fs !! q)
    ∧ (∀ q, is_Some (fs !! q) →
            is_Some (final_fs (download_single_image env url dest replace timeout fs)
                     !! q))
    ∧ (∀ p, In (OpenWrite p)
              (events (download_single_image env url dest replace timeout fs)) →
            p = os_path_join dest name).
Proof. apply download_single_image_writes. Qed.

Lemma download_single_image_touches_one_path_witness :
  final_fs (download_single_image test_env "http://media.test.com/image.jpg?v=2&c=4"
              default_dest_dir false default_timeout test_fs) !! "readme"
  = Some (File "not a directory").
Proof.
  destruct (download_single_image_touches_one_path test_env
              "http://media.test.com/image.jpg?v=2&c=4" default_dest_dir false
              default_timeout test_fs) as (name & Hname & _ & Hframe & _).
  injection Hname as <-. rewrite Hframe; [reflexivity|done].
Defined.

Lemma mkdir_chain_preserves env ps (fs : FS) q n :
  fs !! q = Some n → (mkdir_chain env fs ps).2 !! q = Some n.
Proof.
  revert fs. induction ps as [|a ps IH]; intros fs Hq; [done|].
  cbn [mkdir_chain]. destruct ps as [|b ps].
  - destruct (fs !! a) eqn:Ha; [done|]. destruct (os_denied env a); [done|].
    cbn. rewrite lookup_insert_ne; [done|]. intros ->. congruence.
  - destruct (fs !! a) as [[d|]|] eqn:Ha; [done|by apply IH|].
    destruct (os_denied env a); [done|].
    apply IH. rewrite lookup_insert_ne; [done|]. intros ->. congruence.
Qed.

Lemma create_dest_dir_preserves env dest (fs : FS) q n :
  fs !! q = Some n → final_fs (create_dest_dir env dest fs) !! q = Some n.
Proof.
  intros Hq.
  assert ((makedirs env fs dest).2 !! q = Some n) as Hkeep.
  { unfold makedirs. destruct (path_prefixes _ _ _) as [|a ps]; [done|].
    by apply mkdir_chain_preserves. }
  destruct (create_dest_dir_cases env dest fs)
    as [[_ ->]|[(_ & fs' & Hm & ->)|(_ & fs' & Hm & ->)]]; cbn; [done| |];
    by rewrite Hm in Hkeep.
Qed.

(** X10.  A run of [download_images], however it ends, removes no entry
    of the file system, and it leaves every entry as it was unless the
    entry is one of the directories it creates or lies directly in the
    destination directory under a name without ['/']. *)
Theorem download_images_keeps_other_entries
    env file dest replace timeout procs (fs : FS) q n :
  fs !! q = Some n →
  is_Some (final_fs (download_images env file dest replace timeout procs fs) !! q)
  ∧ ((∀ name, has_char "/" name = false → q ≠ os_path_join dest name) →
     final_fs (download_images env file dest replace timeout procs fs) !! q = Some n).
Proof.
  intros Hq.
  destruct (download_images_final_fs env file dest replace timeout procs fs)
    as (tasks & ->).
  pose proof (create_dest_dir_preserves env dest fs q n Hq) as Hc.
  split.
  - apply (run_tasks_invariant (λ f, is_Some (f !! q))); [|by rewrite Hc].
    intros u f Hf.
    destruct (download_single_image_writes env u dest replace timeout f)
      as (name & _ & _ & _ & Hkeep & _).
    by apply Hkeep.
  - intros Hout.
    apply (run_tasks_invariant (λ f, f !! q = Some n)); [|done].
    intros u f Hf.
    destruct (download_single_image_writes env u dest replace timeout f)
      as (name & _ & Hslash & Hframe & _).
    rewrite Hframe; [done|]. by apply Hout.
Qed.

Lemma download_images_keeps_other_entries_witness :
  let after := final_fs (download_images test_env "urls.txt" default_dest_dir true
                           default_timeout default_processes test_fs) in
  is_Some (after !! "image_downloads/old.jpg")
  ∧ after !! "readme" = Some (File "not a directory").
Proof.
  intros after. subst after. split.
  - apply (download_images_keeps_other_entries test_env "urls.txt" default_dest_dir
             true default_timeout default_processes test_fs "image_downloads/old.jpg"
             (File "old bytes") eq_refl).
  - apply (download_images_keeps_other_entries test_env "urls.txt" default_dest_dir
             true default_timeout default_processes test_fs "readme"
             (File "not a directory") eq_refl).
    intros name _ H. vm_compute in H. discriminate.
Defined.

(** ** [create_dest_dir] *)

Lemma mkdir_chain_last env ps (fs fs' : FS) :
  mkdir_chain env fs ps = (true, fs') → ps ≠ [] → fs' !! List.last ps "" = Some Dir.
Proof.
  revert fs. induction ps as [|a ps IH]; intros fs H Hne; [done|].
  cbn [mkdir_chain] in H. destruct ps as [|b ps].
  - destruct (fs !! a); [done|]. destruct (os_denied env a); [done|].
    simplify_eq. cbn. apply lookup_insert_eq.
  - change (List.last (a :: b :: ps) "") with (List.last (b :: ps) "").
    destruct (fs !! a) as [[d|]|]; [done|by eapply IH|].
    destruct (os_denied env a); [done|]. by eapply IH.
Qed.

Lemma not_ends_with_slash p : ends_with_slash p = false → rstrip_slash p = p.
Proof.
  unfold ends_with_slash. intros H%negb_false_iff. by apply String.eqb_eq.
Qed.

(** X11.  When [create_dest_dir] returns true for a destination written
    with single slashes, the destination exists afterwards, and calling it
    again changes nothing and creates nothing: it is idempotent.  It never
    changes or removes an entry that was there before. *)
Theorem create_dest_dir_idempotent env dest (fs : FS) :
  plain_path dest = true →
  result (create_dest_dir env dest fs) = Ret true →
  let fs' := final_fs (create_dest_dir env dest fs) in
  os_path_exists fs' dest = true
  ∧ create_dest_dir env dest fs' = (Ret true, fs', [PathExists dest])
  ∧ (∀ q n, fs !! q = Some n → fs' !! q = Some n).
Proof.
  intros Hplain Hres fs'. subst fs'.
  assert (os_path_exists (final_fs (create_dest_dir env dest fs)) dest = true) as He.
  { destruct (create_dest_dir_cases env dest fs)
      as [[He Hc]|[(_ & fs' & Hm & Hc)|(_ & fs' & _ & Hc)]]; rewrite Hc in *;
      cbn [final_fs result fst snd] in *; [done| |done].
    unfold makedirs in Hm.
    unfold plain_path in Hplain. apply String.eqb_eq in Hplain.
    destruct (path_prefixes _ _ _) as [|a ps] eqn:Hps; [done|].
    apply mkdir_chain_last in Hm; [|done]. rewrite Hplain in Hm.
    unfold os_path_exists, lookup_path.
    destruct (String.eqb dest "") eqn:E.
    { apply String.eqb_eq in E as ->. by vm_compute in Hps. }
    destruct (ends_with_slash dest) eqn:Es.
    - destruct (String.eqb (rstrip_slash dest) ""); [done|]. by rewrite Hm.
    - rewrite (not_ends_with_slash dest Es) in Hm. by rewrite Hm. }
  split; [done|]. split.
  - unfold create_dest_dir at 1, bind, path_exists, ret. by rewrite He.
  - intros q n. apply create_dest_dir_preserves.
Qed.

Lemma create_dest_dir_idempotent_witness :
  let fs' := final_fs (create_dest_dir test_env "out/a" test_fs) in
  os_path_exists fs' "out/a" = true
  ∧ create_dest_dir test_env "out/a" fs' = (Ret true, fs', [PathExists "out/a"])
  ∧ (∀ q n, test_fs !! q = Some n → fs' !! q = Some n).
Proof.
  apply (create_dest_dir_idempotent test_env "out/a" test_fs); reflexivity.
Defined.

(** ** Runs of an item that passes every check *)

Section PassingItem.

Context (env : Env) (url dest : string) (timeout : Q) (fs : FS).
Context (r : Response) (ct name : string).
Hypothesis Hvalid : validators_url env url = true.
Hypothesis Hget : requests_get env url timeout = Responded r.
Hypothesis Hstatus : status_code r = 200.
Hypothesis Hheader : content_type r = Some ct.
Hypothesis Himage : str_contains "image" ct = true.
Hypothesis Hname : get_filename_from_url url = Ret name.



Lemma download_single_image_skips :
  os_path_exists fs (os_path_join dest name) = true →
  download_single_image env url dest false timeout fs
  = (Ret false, fs,
     passed_checks url timeout (os_path_join dest name)
     ++ [Log INFO ("File already exists, skipping image: " +:+ os_path_join dest name)]).
Proof.
  intros He. unfold_pipeline.
  step Hvalid. step Hget. step (response_ok_200 r Hstatus). step Hstatus.
  step Hheader. step Himage. step Hname. step He. reflexivity.
Qed.

Lemma download_single_image_saves replace fs' :
  os_path_exists fs (os_path_join dest name) && negb replace = false →
  write_file env fs (os_path_join dest name) (content r) = Some fs' →
  download_single_image env url dest replace timeout fs
  = (Ret true, fs',
     passed_checks url timeout (os_path_join dest name)
     ++ [OpenWrite (os_path_join dest name);
         Log DEBUG ("Saved image to: " +:+ os_path_join dest name);
         Log INFO ("Successfully downloaded image: " +:+ os_path_join dest name)]).
Proof.
  intros He Hw. unfold_pipeline.
  step Hvalid. step Hget. step (response_ok_200 r Hstatus). step Hstatus.
  step Hheader. step Himage. step Hname. step He. step Hw. reflexivity.
Qed.

Lemma download_single_image_save_fails replace :
  os_path_exists fs (os_path_join dest name) && negb replace = false →
  write_file env fs (os_path_join dest name) (content r) = None →
  download_single_image env url dest replace timeout fs
  = (Ret true, fs,
     passed_checks url timeout (os_path_join dest name)
     ++ [OpenWrite (os_path_join dest name);
         Log ERROR ("Could not save downloaded image to: " +:+ os_path_join dest name);
         Log INFO ("Successfully downloaded image: " +:+ os_path_join dest name)]).
Proof.
  intros He Hw. unfold_pipeline.
  step Hvalid. step Hget. step (response_ok_200 r Hstatus). step Hstatus.
  step Hheader. step Himage. step Hname. step He. step Hw. reflexivity.
Qed.

End PassingItem.

Lemma write_file_over env (fs fs1 : FS) p d d2 :
  write_file env fs p d = Some fs1 →
  write_file env fs1 p d2 = Some (<[p := File d2]> fs1).
Proof.
  intros H. pose proof (write_file_lookup _ _ _ _ _ H) as Hl.
  unfold write_file in *. destruct (os_denied env p); [done|]. by rewrite Hl.
Qed.

(** X12.  Two URLs with the same derived name compete for one file.  Run
    one after the other on a destination where the name is free and the
    write goes through: without [replace_duplicates] the first is saved
    and the second is skipped, leaving the first body in the file; with
    [replace_duplicates] both report success and the file holds the body
    of the second. *)
Theorem same_name_first_or_last_wins
    env u1 u2 dest timeout (fs fs1 : FS) r1 r2 ct1 ct2 name :
  validators_url env u1 = true → requests_get env u1 timeout = Responded r1 →
  status_code r1 = 200 → content_type r1 = Some ct1 →
  str_contains "image" ct1 = true → get_filename_from_url u1 = Ret name →
  validators_url env u2 = true → requests_get env u2 timeout = Responded r2 →
  status_code r2 = 200 → content_type r2 = Some ct2 →
  str_contains "image" ct2 = true → get_filename_from_url u2 = Ret name →
  os_path_exists fs (os_path_join dest name) = false →
  write_file env fs (os_path_join dest name) (content r1) = Some fs1 →
  let run := λ replace,
    map_async_wait (λ url, download_single_image env url dest replace timeout)
      [u1; u2] fs in
  (result (run false) = Ret [Ret true; Ret false]
   ∧ lookup_path (final_fs (run false)) (os_path_join dest name)
     = Some (File (content r1)))
  ∧ (result (run true) = Ret [Ret true; Ret true]
     ∧ lookup_path (final_fs (run true)) (os_path_join dest name)
       = Some (File (content r2))).
Proof.
  intros Hv1 Hg1 Hs1 Hh1 Hi1 Hn1 Hv2 Hg2 Hs2 Hh2 Hi2 Hn2 He Hw run. subst run.
  pose proof (write_file_lookup _ _ _ _ _ Hw) as Hl1.
  assert (os_path_exists fs1 (os_path_join dest name) = true) as He1
    by (unfold os_path_exists; by rewrite Hl1).
  split.
  - rewrite !map_async_wait_cons.
    rewrite (download_single_image_saves env u1 dest timeout fs r1 ct1 name
               Hv1 Hg1 Hs1 Hh1 Hi1 Hn1 false fs1) by (by rewrite ?He).
    cbn [result final_fs fst snd].
    rewrite (download_single_image_skips env u2 dest timeout fs1 r2 ct2 name
               Hv2 Hg2 Hs2 Hh2 Hi2 Hn2 He1).
    cbn. done.
  - pose proof (write_file_over _ _ _ _ _ (content r2) Hw) as Hw2.
    rewrite !map_async_wait_cons.
    rewrite (download_single_image_saves env u1 dest timeout fs r1 ct1 name
               Hv1 Hg1 Hs1 Hh1 Hi1 Hn1 true fs1) by (by rewrite ?He).
    cbn [result final_fs fst snd].
    rewrite (download_single_image_saves env u2 dest timeout fs1 r2 ct2 name
               Hv2 Hg2 Hs2 Hh2 Hi2 Hn2 true _ (andb_false_r _) Hw2).
    cbn. split; [done|]. by apply (write_file_lookup env fs1).
Qed.

Lemma same_name_first_or_last_wins_witness :
  let env := mkEnv url_grammar
               (λ u _, if String.eqb u "http://a.test.com/image.jpg"
                       then Responded (mkResponse 200 (Some "image/png") "first")
                       else Responded (mkResponse 200 (Some "image/png") "second"))
               (λ _, false) in
  let run := λ replace,
    map_async_wait (λ url, download_single_image env url default_dest_dir replace
                             default_timeout)
      ["http://a.test.com/image.jpg"; "http://b.test.com/x/image.jpg?v=1"] test_fs in
  lookup_path (final_fs (run false)) "image_downloads/image.jpg" = Some (File "first")
  ∧ lookup_path (final_fs (run true)) "image_downloads/image.jpg" = Some (File "second").
Proof.
  intros env run. subst run.
  pose proof (same_name_first_or_last_wins env "http://a.test.com/image.jpg"
                "http://b.test.com/x/image.jpg?v=1" default_dest_dir default_timeout
                test_fs (<["image_downloads/image.jpg" := File "first"]> test_fs)
                (mkResponse 200 (Some "image/png") "first")
                (mkResponse 200 (Some "image/png") "second")
                "image/png" "image/png" "image.jpg"
                eq_refl eq_refl eq_refl eq_refl eq_refl eq_refl
                eq_refl eq_refl eq_refl eq_refl eq_refl eq_refl eq_refl eq_refl)
    as [[_ H1] [_ H2]].
  split; [exact H1|exact H2].
Defined.

(** ** Paths *)

Lemma str_app_nil_r (a : string) : a +:+ "" = a.
Proof. induction a as [|x a IH]; [done|]. by rewrite str_app_cons, IH. Qed.

Lemma rstrip_slash_snoc p : rstrip_slash (p +:+ "/") = rstrip_slash p.
Proof.
  induction p as [|c p IH]; [done|].
  rewrite str_app_cons. cbn [rstrip_slash]. by rewrite IH.
Qed.

Lemma str_neq_snoc (p : string) c : p ≠ p +:+ String c "".
Proof.
  induction p as [|x p IH]; [done|]. rewrite str_app_cons. intros [= H]. done.
Qed.

Lemma rstrip_slash_clean n : has_char slash n = false → rstrip_slash n = n.
Proof.
  induction n as [|c n IH]; [done|]. cbn [has_char rstrip_slash].
  intros [Hc Hn]%orb_false_iff. rewrite (IH Hn).
  destruct n; [by rewrite Hc|done].
Qed.

Lemma rstrip_slash_app a b :
  rstrip_slash b ≠ "" → rstrip_slash (a +:+ b) = a +:+ rstrip_slash b.
Proof.
  intros Hb. induction a as [|c a IH]; [done|].
  rewrite !str_app_cons. cbn [rstrip_slash]. rewrite IH.
  destruct a; [|done]. change ("" +:+ rstrip_slash b) with (rstrip_slash b).
  by destruct (rstrip_slash b).
Qed.

Lemma dirname_join d n : has_char slash n = false → dirname (d +:+ "/" +:+ n) = d.
Proof.
  intros Hn. induction d as [|c d IH].
  - change ("" +:+ "/" +:+ n) with (String slash n). cbn [dirname]. by rewrite Hn.
  - rewrite str_app_cons. cbn [dirname]. rewrite IH.
    rewrite has_char_app. change ("/" +:+ n) with (String slash n).
    cbn [has_char]. rewrite Ascii.eqb_refl. by rewrite orb_true_r.
Qed.

(** A path that resolves without a trailing slash is looked up as written. *)
Lemma lookup_path_plain (fs : FS) p :
  String.eqb p "" = false → ends_with_slash p = false → lookup_path fs p = fs !! p.
Proof. intros E1 E2. unfold lookup_path. by rewrite E1, E2. Qed.

Lemma lookup_path_dir_slash (fs : FS) d :
  lookup_path fs d = Some Dir → lookup_path fs (os_path_join d "") = Some Dir.
Proof.
  intros Hd. unfold os_path_join.
  destruct (String.eqb d "") eqn:E; [by unfold lookup_path in Hd; rewrite E in Hd|].
  destruct (ends_with_slash d) eqn:Es; [by rewrite str_app_nil_r|].
  change ("/" +:+ "") with "/".
  rewrite (lookup_path_plain fs d E Es) in Hd.
  unfold lookup_path, ends_with_slash.
  rewrite rstrip_slash_snoc, (not_ends_with_slash d Es), E.
  assert (String.eqb (d +:+ "/") "" = false) as ->.
  { apply String.eqb_neq. destruct d; done. }
  assert (String.eqb d (d +:+ "/") = false) as ->
    by (apply String.eqb_neq, str_neq_snoc).
  cbn [negb]. by rewrite Hd.
Qed.

(** X13.  A URL that ends in ['/'] has the empty name, and its
    destination path is the destination directory itself.  When that
    directory exists, the item, having passed every check, writes nothing:
    without [replace_duplicates] it is skipped as an existing file and
    returns false; with [replace_duplicates] the write fails, yet the item
    logs a success and returns true. *)
Theorem empty_name_never_writes env url dest timeout (fs : FS) r ct :
  validators_url env url = true →
  requests_get env url timeout = Responded r →
  status_code r = 200 →
  content_type r = Some ct →
  str_contains "image" ct = true →
  get_filename_from_url url = Ret "" →
  lookup_path fs dest = Some Dir →
  let path := os_path_join dest "" in
  download_single_image env url dest false timeout fs
  = (Ret false, fs,
     passed_checks url timeout path
     ++ [Log INFO ("File already exists, skipping image: " +:+ path)])
  ∧ download_single_image env url dest true timeout fs
    = (Ret true, fs,
       passed_checks url timeout path
       ++ [OpenWrite path;
           Log ERROR ("Could not save downloaded image to: " +:+ path);
           Log INFO ("Successfully downloaded image: " +:+ path)]).
Proof.
  intros Hv Hg Hs Hh Hi Hn Hd path. subst path.
  pose proof (lookup_path_dir_slash fs dest Hd) as Hl.
  assert (os_path_exists fs (os_path_join dest "") = true) as He
    by (unfold os_path_exists; by rewrite Hl).
  split.
  - by apply (download_single_image_skips env url dest timeout fs r ct "").
  - apply (download_single_image_save_fails env url dest timeout fs r ct "");
      try done; [apply andb_false_r|].
    unfold write_file. rewrite Hl. by destruct (os_denied env _).
Qed.

Lemma empty_name_never_writes_witness :
  let env := mkEnv url_grammar
               (λ _ _, Responded (mkResponse 200 (Some "image/png") "bytes"))
               (λ _, false) in
  final_fs (download_single_image env "http://media.test.com/gallery/"
              default_dest_dir false default_timeout test_fs) = test_fs
  ∧ download_single_image env "http://media.test.com/gallery/" default_dest_dir true
      default_timeout test_fs
    = (Ret true, test_fs,
       passed_checks "http://media.test.com/gallery/" default_timeout "image_downloads/"
       ++ [OpenWrite "image_downloads/";
           Log ERROR ("Could not save downloaded image to: " +:+ "image_downloads/");
           Log INFO ("Successfully downloaded image: " +:+ "image_downloads/")]).
Proof.
  intros env.
  pose proof (empty_name_never_writes env "http://media.test.com/gallery/"
                default_dest_dir default_timeout test_fs
                (mkResponse 200 (Some "image/png") "bytes") "image/png"
                eq_refl eq_refl eq_refl eq_refl eq_refl eq_refl eq_refl) as [H1 H2].
  split; [by rewrite H1|exact H2].
Defined.

Lemma lookup_path_file_plain (fs : FS) p d :
  lookup_path fs p = Some (File d) →
  String.eqb p "" = false ∧ ends_with_slash p = false ∧ fs !! p = Some (File d).
Proof.
  unfold lookup_path. intros H.
  destruct (String.eqb p ""); [done|].
  destruct (ends_with_slash p); [|done].
  destruct (String.eqb (rstrip_slash p) ""); [done|].
  by destruct (fs !! rstrip_slash p) as [[]|].
Qed.

(** Below a regular file nothing exists and nothing can be written. *)
Lemma write_below_file env (fs : FS) dest d name data :
  lookup_path fs dest = Some (File d) →
  (∀ n, fs !! (dest +:+ "/" +:+ n) = None) →
  has_char slash name = false →
  os_path_exists fs (os_path_join dest name) = false
  ∧ write_file env fs (os_path_join dest name) data = None.
Proof.
  intros Hd Hbelow Hname.
  destruct (lookup_path_file_plain fs dest d Hd) as (E & Es & Hfile).
  unfold os_path_join. rewrite E, Es.
  assert (String.eqb (dest +:+ "/" +:+ name) "" = false) as Ene.
  { apply String.eqb_neq. destruct dest; done. }
  assert (lookup_path fs (dest +:+ "/" +:+ name) = None
          ∧ (ends_with_slash (dest +:+ "/" +:+ name) = false →
             parent_is_dir fs (dest +:+ "/" +:+ name) = false)) as [Hl Hp].
  { split.
    - destruct name as [|c n].
      + change ("/" +:+ "") with "/". unfold lookup_path, ends_with_slash.
        rewrite rstrip_slash_snoc, (not_ends_with_slash dest Es), E.
        assert (String.eqb (dest +:+ "/") "" = false) as ->
          by (apply String.eqb_neq; destruct dest; done).
        assert (String.eqb dest (dest +:+ "/") = false) as ->
          by (apply String.eqb_neq, str_neq_snoc).
        cbn [negb]. by rewrite Hfile.
      + assert (rstrip_slash ("/" +:+ String c n) = "/" +:+ String c n) as Hr.
        { rewrite rstrip_slash_app; rewrite (rstrip_slash_clean (String c n) Hname);
            done. }
        rewrite lookup_path_plain; [apply Hbelow|done|].
        unfold ends_with_slash. rewrite rstrip_slash_app, Hr.
        * by rewrite String.eqb_refl.
        * by rewrite Hr.
    - intros _. unfold parent_is_dir. rewrite (dirname_join dest name Hname).
      rewrite (not_ends_with_slash dest Es), E, Hd. done. }
  split.
  - unfold os_path_exists. by rewrite Hl.
  - unfold write_file. destruct (os_denied env _); [done|]. rewrite Hl, Ene.
    destruct (ends_with_slash (dest +:+ "/" +:+ name)) eqn:E2; [done|].
    cbn [orb]. by rewrite (Hp eq_refl).
Qed.

Lemma download_single_image_below_file env url dest replace timeout (fs : FS) d :
  lookup_path fs dest = Some (File d) →
  (∀ n, fs !! (dest +:+ "/" +:+ n) = None) →
  final_fs (download_single_image env url dest replace timeout fs) = fs.
Proof.
  intros Hd Hbelow.
  destruct (get_filename_from_url_decompose url)
    as (pre & name & query & Hname & _ & _ & Hslash & _).
  rewrite has_char_app in Hslash. apply orb_false_iff in Hslash as [Hslash _].
  case_pipeline; try done.
  match goal with
  | H : write_file _ ?f _ ?data = Some _ |- _ =>
      rewrite (proj2 (write_below_file env f dest d name data Hd Hbelow Hslash)) in H
  end. done.
Qed.

(** X14.  [create_dest_dir] only asks whether the destination exists.
    When the destination is an existing regular file it returns true
    without an error; no item can then write anything, the file system is
    the same after the batch as before, and still the batch returns true
    (the URL file read, at least one process). *)
Theorem file_as_destination_saves_nothing
    env file dest replace timeout procs (fs : FS) d lines :
  lookup_path fs dest = Some (File d) →
  (∀ n, fs !! (dest +:+ "/" +:+ n) = None) →
  read_file env fs file = Some lines →
  1 ≤ procs →
  create_dest_dir env dest fs = (Ret true, fs, [PathExists dest])
  ∧ result (download_images env file dest replace timeout procs fs) = Ret true
  ∧ final_fs (download_images env file dest replace timeout procs fs) = fs.
Proof.
  intros Hd Hbelow Hr Hp.
  assert (create_dest_dir env dest fs = (Ret true, fs, [PathExists dest])) as Hc.
  { unfold create_dest_dir, bind, path_exists, ret, os_path_exists. by rewrite Hd. }
  split; [done|].
  rewrite (download_images_run env file dest replace timeout procs fs lines);
    rewrite ?Hc; try done.
  cbn [result final_fs fst snd]. split; [done|].
  unfold map_async. apply (run_tasks_invariant (λ f, f = fs)); [|done].
  intros u f ->.
  by apply (download_single_image_below_file env u dest replace timeout fs d).
Qed.

Lemma file_as_destination_saves_nothing_witness :
  let o := download_images test_env "urls.txt" "readme" true default_timeout
             default_processes test_fs in
  result o = Ret true ∧ final_fs o = test_fs.
Proof.
  intros o. subst o.
  destruct (file_as_destination_saves_nothing test_env "urls.txt" "readme" true
              default_timeout default_processes test_fs "not a directory"
              (readlines urls_txt)) as (_ & Hres & Hfs);
    [reflexivity| |reflexivity|unfold default_processes; lia|by split].
  intros n. unfold test_fs.
  rewrite !lookup_insert_ne by (intros H; vm_compute in H; discriminate).
  apply lookup_singleton_ne. intros H. vm_compute in H. discriminate.
Defined.

(** ** How [download_images] ends *)

Lemma download_images_unreadable env file dest replace timeout procs fs :
  result (create_dest_dir env dest fs) = Ret true →
  read_file env (final_fs (create_dest_dir env dest fs)) file = None →
  download_images env file dest replace timeout procs fs
  = (Raise TypeError, final_fs (create_dest_dir env dest fs),
     events (create_dest_dir env dest fs)
     ++ [OpenRead file; Log CRITICAL ("Could not read file: " +:+ file)]).
Proof.
  intros Hc Hr. unfold download_images, bind at 1.
  destruct (create_dest_dir env dest fs) as [[c fs1] t1]. cbn in Hc, Hr |- *. subst c.
  cbn [negb]. unfold bind, read_lines_from_file, raise. by rewrite Hr.
Qed.

Lemma download_images_no_process env file dest replace timeout procs fs lines :
  result (create_dest_dir env dest fs) = Ret true →
  read_file env (final_fs (create_dest_dir env dest fs)) file = Some lines →
  procs < 1 →
  download_images env file dest replace timeout procs fs
  = (Raise ValueError, final_fs (create_dest_dir env dest fs),
     events (create_dest_dir env dest fs) ++ [OpenRead file]).
Proof.
  intros Hc Hr Hp. unfold download_images, bind at 1.
  destruct (create_dest_dir env dest fs) as [[c fs1] t1]. cbn in Hc, Hr |- *. subst c.
  cbn [negb]. unfold bind at 1, read_lines_from_file. rewrite Hr.
  unfold bind, Pool, raise.
  replace (procs <? 1) with true by (symmetry; apply Z.ltb_lt; lia). done.
Qed.

(** X15.  When the URL file cannot be read, [read_lines_from_file] logs
    the failure and returns [False]; [download_images] then iterates over
    that value and raises [TypeError].  By then the destination directory
    has been created; nothing has been fetched or written. *)
Theorem unreadable_url_file_raises env file dest replace timeout procs fs :
  result (create_dest_dir env dest fs) = Ret true →
  read_file env (final_fs (create_dest_dir env dest fs)) file = None →
  download_images env file dest replace timeout procs fs
  = (Raise TypeError, final_fs (create_dest_dir env dest fs),
     events (create_dest_dir env dest fs)
     ++ [OpenRead file; Log CRITICAL ("Could not read file: " +:+ file)]).
Proof. apply download_images_unreadable. Qed.

Lemma unreadable_url_file_raises_witness :
  let o := download_images test_env "fjsiodfjosdods.txt" "out/a" false default_timeout
             default_processes test_fs in
  result o = Raise TypeError
  ∧ os_path_exists (final_fs o) "out/a" = true
  ∧ os_path_exists test_fs "out/a" = false.
Proof.
  intros o. subst o.
  rewrite (unreadable_url_file_raises test_env "fjsiodfjosdods.txt" "out/a" false
             default_timeout default_processes test_fs eq_refl eq_refl).
  repeat split; reflexivity.
Defined.

(** X16.  With fewer than one process [Pool] raises [ValueError], and so
    does [download_images]: after the directory was created and the URL
    file read, before any URL is looked at. *)
Theorem too_few_processes_raises env file dest replace timeout procs fs lines :
  result (create_dest_dir env dest fs) = Ret true →
  read_file env (final_fs (create_dest_dir env dest fs)) file = Some lines →
  procs < 1 →
  download_images env file dest replace timeout procs fs
  = (Raise ValueError, final_fs (create_dest_dir env dest fs),
     events (create_dest_dir env dest fs) ++ [OpenRead file]).
Proof. apply download_images_no_process. Qed.

Lemma too_few_processes_raises_witness :
  download_images test_env "urls.txt" default_dest_dir false default_timeout 0 test_fs
  = (Raise ValueError, test_fs, [PathExists default_dest_dir; OpenRead "urls.txt"]).
Proof.
  rewrite (too_few_processes_raises test_env "urls.txt" default_dest_dir false
             default_timeout 0 test_fs (readlines urls_txt) eq_refl eq_refl);
    [reflexivity|lia].
Defined.

(** X17.  [download_images] returns true exactly when the destination
    directory is available, the URL file can be read and the pool has at
    least one process; what the items return or raise plays no part. *)
Theorem download_images_true_iff env file dest replace timeout procs fs :
  result (download_images env file dest replace timeout procs fs) = Ret true
  ↔ result (create_dest_dir env dest fs) = Ret true
    ∧ is_Some (read_file env (final_fs (create_dest_dir env dest fs)) file)
    ∧ 1 ≤ procs.
Proof.
  split.
  - intros H.
    destruct (create_dest_dir_events env dest fs) as (b & _ & Hb & _).
    destruct b.
    2:{ rewrite (download_images_failed_dir _ _ _ _ _ _ _ Hb) in H. done. }
    split; [done|].
    destruct (read_file env (final_fs (create_dest_dir env dest fs)) file)
      as [lines|] eqn:Hr.
    2:{ rewrite (download_images_unreadable env file dest replace timeout procs fs Hb Hr)
          in H. done. }
    split; [done|].
    destruct (decide (procs < 1)) as [Hp|Hp]; [|lia].
    rewrite (download_images_no_process env file dest replace timeout procs fs lines
               Hb Hr Hp) in H. done.
  - intros (Hc & [lines Hr] & Hp).
    by rewrite (download_images_run env file dest replace timeout procs fs lines Hc Hr Hp).
Qed.

(** ** Reading the URL file *)

Lemma printable_not_space c : in_range 33 126 c = true → isspace c = false.
Proof. destruct c as [[] [] [] [] [] [] [] []]; vm_compute; congruence. Qed.

Lemma universal_newlines_app u rest :
  url_text u = true →
  universal_newlines (u +:+ rest) = u +:+ universal_newlines rest.
Proof.
  induction u as [|c u IH]; [done|]. unfold url_text in *. cbn [all_chars].
  intros [Hc%printable_not_space Hu]%andb_true_iff.
  rewrite !str_app_cons. cbn [universal_newlines].
  destruct (Ascii.eqb c CR) eqn:E.
  { apply Ascii.eqb_eq in E as ->. by vm_compute in Hc. }
  by rewrite (IH Hu).
Qed.

Lemma cut_lines_app u rest :
  url_text u = true →
  cut_lines (u +:+ nl +:+ rest) = (u +:+ nl) :: cut_lines rest.
Proof.
  induction u as [|c u IH]; [done|]. unfold url_text in *. cbn [all_chars].
  intros [Hc%printable_not_space Hu]%andb_true_iff.
  rewrite !str_app_cons. cbn [cut_lines].
  destruct (Ascii.eqb c LF) eqn:E.
  { apply Ascii.eqb_eq in E as ->. by vm_compute in Hc. }
  by rewrite (IH Hu).
Qed.

(** A printable ASCII character is no white space and starts the encoding
    of none. *)
Lemma printable_not_lead c a b :
  in_range 33 126 c = true → isspace2 c a = false ∧ isspace3 c a b = false.
Proof.
  unfold in_range, isspace2, isspace3, byte_is.
  intros [_ Hhi%Nat.leb_le]%andb_true_iff.
  assert (∀ n, (126 < n)%nat → Nat.eqb (nat_of_ascii c) n = false) as Hne
    by (intros n Hn; apply Nat.eqb_neq; lia).
  rewrite (Hne 194%nat), (Hne 225%nat), (Hne 226%nat), (Hne 227%nat) by lia. done.
Qed.

Lemma lstrip_printable c s :
  in_range 33 126 c = true → lstrip (String c s) = String c s.
Proof.
  intros Hc. cbn [lstrip]. rewrite (printable_not_space c Hc).
  destruct s as [|a [|b s]]; [done| |].
  - by rewrite (proj1 (printable_not_lead c a a Hc)).
  - by rewrite (proj1 (printable_not_lead c a b Hc)), (proj2 (printable_not_lead c a b Hc)).
Qed.

Lemma all_space_printable c s :
  in_range 33 126 c = true → all_space (String c s) = false.
Proof.
  intros Hc. cbn [all_space]. rewrite (printable_not_space c Hc).
  destruct s as [|a [|b s]]; [done| |].
  - by rewrite (proj1 (printable_not_lead c a a Hc)).
  - by rewrite (proj1 (printable_not_lead c a b Hc)), (proj2 (printable_not_lead c a b Hc)).
Qed.

Lemma strip_line u : url_text u = true → strip (u +:+ nl) = u.
Proof.
  intros Hu. unfold strip.
  assert (lstrip (u +:+ nl) = u +:+ nl ∨ u = "") as [-> | ->].
  { destruct u as [|c u]; [by right|]. left. unfold url_text in Hu. cbn [all_chars] in Hu.
    apply andb_true_iff in Hu as [Hc _].
    rewrite str_app_cons. by apply lstrip_printable. }
  2:{ reflexivity. }
  induction u as [|c u IH]; [done|]. unfold url_text in *. cbn [all_chars] in Hu.
  apply andb_true_iff in Hu as [Hc Hu].
  rewrite str_app_cons.
  change (rstrip (String c (u +:+ nl)))
    with (if all_space (String c (u +:+ nl)) then "" else String c (rstrip (u +:+ nl))).
  by rewrite (all_space_printable c _ Hc), (IH Hu).
Qed.

Lemma readlines_unlines eol urls :
  eol = nl ∨ eol = crlf →
  forallb url_text urls = true →
  strip <$> readlines (unlines eol urls) = urls.
Proof.
  intros Heol. induction urls as [|u us IH]; [done|].
  cbn [forallb unlines]. intros [Hu Hus]%andb_true_iff.
  unfold readlines in *. rewrite (universal_newlines_app u _ Hu).
  assert (universal_newlines (eol +:+ unlines eol us)
          = nl +:+ universal_newlines (unlines eol us)) as ->
    by (destruct Heol as [->| ->]; reflexivity).
  rewrite (cut_lines_app u _ Hu). cbn [fmap list_fmap].
  by rewrite (strip_line u Hu), (IH Hus).
Qed.

(** X18.  A URL file that holds one entry per line, each line closed by a
    line feed or by carriage return and line feed, and every entry written
    with printable ASCII characters other than the space, is read back
    exactly: [read_lines_from_file] returns its
    lines and stripping them, as [download_images] does, gives the entries
    in order.  An empty entry (a blank line) is handed on as the empty
    URL. *)
Theorem url_file_round_trip env file (fs : FS) eol urls :
  eol = nl ∨ eol = crlf →
  forallb url_text urls = true →
  os_denied env file = false →
  lookup_path fs file = Some (File (unlines eol urls)) →
  ∃ lines,
    read_lines_from_file env file fs = (Ret (Some lines), fs, [OpenRead file])
    ∧ strip <$> lines = urls.
Proof.
  intros Heol Hu Hd Hl. exists (readlines (unlines eol urls)). split.
  - unfold read_lines_from_file, read_file. by rewrite Hd, Hl.
  - by apply readlines_unlines.
Qed.

Lemma url_file_round_trip_witness :
  ∃ lines,
    read_lines_from_file test_env "list.txt"
      {[ "list.txt" := File (unlines crlf ["http://a.test.com/x.png"; ""; "not-a-url"]) ]}
    = (Ret (Some lines),
       {[ "list.txt" := File (unlines crlf ["http://a.test.com/x.png"; ""; "not-a-url"]) ]},
       [OpenRead "list.txt"])
    ∧ strip <$> lines = ["http://a.test.com/x.png"; ""; "not-a-url"].
Proof.
  apply (url_file_round_trip test_env "list.txt" _ crlf
           ["http://a.test.com/x.png"; ""; "not-a-url"]);
    [by right|reflexivity|reflexivity|reflexivity].
Defined.

(** ** What the return values tell *)

(** X19.  [save_image] never raises: it returns true or false.  When it
    returns true the file at the path holds exactly the response body.
    Whatever it returns, no entry other than the one at the path has
    changed and no entry has been removed. *)
Theorem save_image_writes_or_leaves env response path (fs : FS) :
  let o := save_image env response path fs in
  (∃ b, result o = Ret b)
  ∧ (result o = Ret true →
       lookup_path (final_fs o) path = Some (File (content response)))
  ∧ (∀ q, q ≠ path → final_fs o !! q = fs !! q)
  ∧ (∀ q, is_Some (fs !! q) → is_Some (final_fs o !! q)).
Proof.
  unfold save_image.
  destruct (write_file env fs path (content response)) as [fs'|] eqn:Hw; cbn.
  - split; [by eexists|]. split; [intros _; by apply (write_file_lookup env fs)|].
    apply write_file_insert in Hw as ->. split.
    + intros q Hq. by rewrite lookup_insert_ne.
    + intros q Hq. destruct (decide (path = q)) as [->|Hne].
      * rewrite lookup_insert_eq. by eexists.
      * by rewrite lookup_insert_ne.
  - split; [by eexists|]. done.
Qed.

Lemma save_image_writes_or_leaves_witness :
  let o := save_image test_env image_response "image_downloads/new.jpg" test_fs in
  lookup_path (final_fs o) "image_downloads/new.jpg" = Some (File "I am an image")
  ∧ final_fs o !! "readme" = test_fs !! "readme".
Proof.
  intros o. subst o.
  destruct (save_image_writes_or_leaves test_env image_response
              "image_downloads/new.jpg" test_fs) as (_ & Hw & Hframe & _).
  split; [apply Hw; reflexivity|apply Hframe; done].
Defined.

(** X20.  [download_single_image] returns true exactly when it has
    opened the destination file for writing: true tells that the write was
    attempted, and every other run opens no file. *)
Theorem download_single_image_true_iff_write env url dest replace timeout fs :
  result (download_single_image env url dest replace timeout fs) = Ret true
  ↔ ∃ p, In (OpenWrite p) (events (download_single_image env url dest replace timeout fs)).
Proof.
  destruct (get_filename_from_url_returns url) as (name & Hname).
  case_pipeline; (split; [intros ?|intros [p Hin]]);
    try done; try (eexists; cbn; eauto 10; fail);
    cbn in Hin; intuition congruence.
Qed.

(** X21.  A run that returns false tells why in an ERROR or INFO record,
    with one exception: it returns false without any such record exactly
    when the URL is valid and the response has an error status (the truth
    value of the response is false). *)
Theorem silent_failure_iff_error_status env url dest replace timeout fs :
  let o := download_single_image env url dest replace timeout fs in
  (result o = Ret false ∧ forallb (λ e, negb (is_report e)) (events o) = true)
  ↔ (validators_url env url = true
     ∧ ∃ r, requests_get env url timeout = Responded r ∧ response_ok r = false).
Proof.
  destruct (get_filename_from_url_returns url) as (name & Hname).
  case_pipeline;
    (split; [intros [? ?]|intros (? & r' & ? & ?)]);
    simplify_eq; try done; eauto;
    repeat match goal with
           | H : negb _ = false |- _ => apply negb_false_iff in H
           | H : negb _ = true |- _ => apply negb_true_iff in H
           end;
    try congruence; eauto.
Qed.

(** ** A second pass *)

Lemma fails_checks_frame env url dest replace timeout fs :
  passes_checks env url timeout = false →
  final_fs (download_single_image env url dest replace timeout fs) = fs.
Proof.
  unfold passes_checks.
  destruct (validators_url env url) eqn:Hv;
    [|intros _; unfold_pipeline; step Hv; reflexivity].
  destruct (requests_get env url timeout) as [r| |] eqn:Hg;
    [|intros _; unfold_pipeline; step Hv; step Hg; reflexivity..].
  destruct (response_ok r) eqn:Hok;
    [|intros _; unfold_pipeline; step Hv; step Hg; step Hok; reflexivity].
  destruct (status_code r =? 200) eqn:Hs;
    [|intros _; unfold_pipeline; step Hv; step Hg; step Hok; step Hs; reflexivity].
  destruct (content_type r) as [ct|] eqn:Hc;
    [|intros _; unfold_pipeline; step Hv; step Hg; step Hok; step Hs; step Hc;
      reflexivity].
  cbn [andb]. intros Hi.
  unfold_pipeline. step Hv. step Hg. step Hok. step Hs. step Hc. step Hi. reflexivity.
Qed.

Lemma passes_checks_inv env url timeout :
  passes_checks env url timeout = true →
  ∃ r ct,
    validators_url env url = true
    ∧ requests_get env url timeout = Responded r
    ∧ status_code r = 200
    ∧ content_type r = Some ct
    ∧ str_contains "image" ct = true.
Proof.
  unfold passes_checks.
  destruct (validators_url env url); [|done].
  destruct (requests_get env url timeout) as [r| |]; [|done..].
  cbn [andb]. intros [[_ Hs]%andb_true_iff Hc]%andb_true_iff.
  destruct (content_type r) as [ct|] eqn:Hh; [|done].
  apply Z.eqb_eq in Hs. exists r, ct. done.
Qed.

(** X22.  After any run of an item, running the same item again without
    [replace_duplicates] changes nothing (the server answering as before):
    either the file is there and the item is skipped, or what kept the
    first run from writing keeps the second from it too. *)
Theorem second_pass_changes_nothing env url dest replace timeout fs :
  let fs' := final_fs (download_single_image env url dest replace timeout fs) in
  final_fs (download_single_image env url dest false timeout fs') = fs'.
Proof.
  intros fs'. subst fs'.
  destruct (passes_checks env url timeout) eqn:Hp.
  2:{ by rewrite !fails_checks_frame. }
  destruct (passes_checks_inv env url timeout Hp) as (r & ct & Hv & Hg & Hs & Hh & Hi).
  destruct (get_filename_from_url_returns url) as (name & Hn).
  set (path := os_path_join dest name).
  destruct (os_path_exists fs path) eqn:He.
  - (* the file is there: the second pass skips it whatever the first did *)
    assert (os_path_exists
              (final_fs (download_single_image env url dest replace timeout fs)) path
            = true) as He'.
    { destruct replace.
      - destruct (write_file env fs path (content r)) as [fs1|] eqn:Hw.
        + rewrite (download_single_image_saves env url dest timeout fs r ct name
                     Hv Hg Hs Hh Hi Hn true fs1 (andb_false_r _) Hw).
          cbn. unfold os_path_exists. by rewrite (write_file_lookup _ _ _ _ _ Hw).
        + by rewrite (download_single_image_save_fails env url dest timeout fs r ct name
                        Hv Hg Hs Hh Hi Hn true (andb_false_r _) Hw).
      - by rewrite (download_single_image_skips env url dest timeout fs r ct name
                      Hv Hg Hs Hh Hi Hn He). }
    by rewrite (download_single_image_skips env url dest timeout _ r ct name
                  Hv Hg Hs Hh Hi Hn He').
  - assert (os_path_exists fs path && negb replace = false) as Hne by (by rewrite He).
    destruct (write_file env fs path (content r)) as [fs1|] eqn:Hw.
    + rewrite (download_single_image_saves env url dest timeout fs r ct name
                 Hv Hg Hs Hh Hi Hn replace fs1 Hne Hw).
      cbn [final_fs fst snd].
      assert (os_path_exists fs1 path = true) as He1
        by (unfold os_path_exists; by rewrite (write_file_lookup _ _ _ _ _ Hw)).
      by rewrite (download_single_image_skips env url dest timeout fs1 r ct name
                    Hv Hg Hs Hh Hi Hn He1).
    + rewrite (download_single_image_save_fails env url dest timeout fs r ct name
                 Hv Hg Hs Hh Hi Hn replace Hne Hw).
      cbn [final_fs fst snd].
      rewrite (download_single_image_save_fails env url dest timeout fs r ct name
                 Hv Hg Hs Hh Hi Hn false); [done| |done].
      fold path. by rewrite He.
Qed.
